(** * IBKR wrapper: contracts, connection, portfolios and accounts

    A shallow embedding of [src/ibkr/contracts.py], [src/ibkr/api.py],
    [src/ibkr/portfolios.py] and [src/ibkr/accounts.py] and the properties
    of the specification that are checked against them.

    Python exceptions are values of [exn]; a function that can raise returns
    a [result]; a method that mutates an object (a registry, the connection)
    is a function from the state before the call to an outcome and the state
    at the point where the call returned or raised. Python floats are IEEE
    binary64 numbers ([spec_float] at precision 53), dictionaries are
    association lists in insertion order. *)

From Stdlib Require Import ZArith List String Ascii Bool Lia QArith.
From Stdlib Require Import Floats.SpecFloat.
Import ListNotations.

Open Scope Z_scope.

(* ====================================================================== *)
(** ** The Python runtime the code relies on *)
(* ====================================================================== *)

Module Py.

(** The built-in exceptions the modelled code can raise. The ones the
    code raises itself carry their message, [KeyError] the missing key and
    [AttributeError] the missing attribute. *)
Inductive exn : Type :=
| KeyError (key : string)
| ZeroDivisionError
| ValueError (msg : string)
| OverflowError
| TypeError (msg : string)
| AttributeError (name : string).

Inductive result (A : Type) : Type :=
| Ok (a : A)
| Raise (e : exn).

Arguments Ok {A} a.
Arguments Raise {A} e.

Definition bind {A B : Type} (r : result A) (f : A -> result B) : result B :=
  match r with
  | Ok a => f a
  | Raise e => Raise e
  end.

(** A computation over a mutable object of type [S]: the outcome and the
    object as the call leaves it (also when it raises). *)
Definition M (S A : Type) : Type := S -> result A * S.

Definition ret {S A : Type} (a : A) : M S A := fun s => (Ok a, s).

(** *** dict: keys in insertion order, one entry per key *)

Definition dict (V : Type) : Type := list (string * V).

Definition keys {V : Type} (d : dict V) : list string := map fst d.

Fixpoint dict_get {V : Type} (key : string) (d : dict V) : option V :=
  match d with
  | [] => None
  | (k, v) :: d' => if String.eqb k key then Some v else dict_get key d'
  end.

(** [d[key] = v]: an existing key keeps its position, a new key goes last. *)
Fixpoint dict_set {V : Type} (key : string) (v : V) (d : dict V) : dict V :=
  match d with
  | [] => [(key, v)]
  | (k, x) :: d' =>
      if String.eqb k key then (k, v) :: d' else (k, x) :: dict_set key v d'
  end.

(** [d[key]] as an expression. *)
Definition getitem {V : Type} (d : dict V) (key : string) : result V :=
  match dict_get key d with
  | Some v => Ok v
  | None => Raise (KeyError key)
  end.

(** *** float: IEEE 754 binary64, round to nearest even *)

Definition float : Type := spec_float.

Definition prec : Z := 53.
Definition emax : Z := 1024.

Definition float_sub (a b : float) : float := SFsub prec emax a b.
Definition float_mul (a b : float) : float := SFmul prec emax a b.
Definition float_div (a b : float) : float := SFdiv prec emax a b.

Definition is_zero (x : float) : bool :=
  match x with
  | S754_zero _ => true
  | _ => false
  end.

Definition is_finite (x : float) : bool :=
  match x with
  | S754_zero _ | S754_finite _ _ _ => true
  | _ => false
  end.

(** [a / b]: a zero divisor of either sign raises. *)
Definition float_truediv (a b : float) : result float :=
  if is_zero b then Raise ZeroDivisionError
  else Ok (float_div a b).

(** [int(x)]: the integral part of [x]; NaN and the infinities raise. The
    mantissa is shifted by the exponent, so the fraction bits are dropped
    whatever the sign. *)
Definition float_int (x : float) : result Z :=
  match x with
  | S754_nan => Raise (ValueError "cannot convert float NaN to integer")
  | S754_infinity _ => Raise OverflowError
  | S754_zero _ => Ok 0
  | S754_finite s m e => Ok (cond_Zopp s (Z.shiftl (Zpos m) e))
  end.

(** [float(z)] for an integer, correctly rounded. *)
Definition float_of_Z (z : Z) : float := binary_normalize prec emax z 0 false.

(** The decimal literal [num/den] (as in [0.8 = 8/10]): the binary64 number
    nearest to the quotient, for [num] and [den] below 2^53. *)
Definition float_lit (num den : Z) : float :=
  float_div (float_of_Z num) (float_of_Z den).

(** The rational number a finite float stands for. *)
Definition float_value (x : float) : Q :=
  match x with
  | S754_finite s m e =>
      match e with
      | Zneg p => Qmake (cond_Zopp s (Zpos m)) (2 ^ p)%positive
      | _ => inject_Z (cond_Zopp s (Zpos m * 2 ^ e))
      end
  | _ => 0%Q
  end.

(** [z] is [q] with its fraction dropped: the integer next to [q] on the
    side of zero. *)
Definition truncation_toward_zero (q : Q) (z : Z) : Prop :=
  ((0 <= q)%Q -> (inject_Z z <= q)%Q /\ (q < inject_Z (z + 1))%Q) /\
  ((q <= 0)%Q -> (inject_Z (z - 1) < q)%Q /\ (q <= inject_Z z)%Q).

(** *** str.strip and numpy.abs *)

(** [c.isspace()] for a code point below 256. *)
Definition isspace (c : ascii) : bool :=
  let n := N_of_ascii c in
  ((9 <=? n) && (n <=? 13) || (28 <=? n) && (n <=? 32)
   || (n =? 133) || (n =? 160))%N.

Fixpoint lstrip (s : string) : string :=
  match s with
  | EmptyString => EmptyString
  | String c s' => if isspace c then lstrip s' else s
  end.

Fixpoint rstrip (s : string) : string :=
  match s with
  | EmptyString => EmptyString
  | String c s' =>
      match rstrip s' with
      | EmptyString => if isspace c then EmptyString else String c EmptyString
      | r => String c r
      end
  end.

Definition strip (s : string) : string := rstrip (lstrip s).

(** Every character of [s] is white space (so is the empty string). *)
Fixpoint whitespace_only (s : string) : bool :=
  match s with
  | EmptyString => true
  | String c s' => isspace c && whitespace_only s'
  end.

(** [not s]: a string is false when it is empty. *)
Definition str_not (s : string) : bool :=
  match s with
  | EmptyString => true
  | _ => false
  end.

(** [np.abs(v)] for a Python int [v]: numpy computes on a 64-bit integer
    when [v] fits one, where the negation of the least value wraps to
    itself, and on the Python int otherwise. *)
Definition np_abs (v : Z) : Z :=
  if v =? - 2 ^ 63 then - 2 ^ 63 else Z.abs v.

Definition is_nan (x : float) : bool :=
  match x with
  | S754_nan => true
  | _ => false
  end.

(** [float(z)] for a Python int: the nearest float, and [OverflowError]
    when that is beyond the largest one. *)
Definition float_of_int (z : Z) : result float :=
  let f := float_of_Z z in
  if is_finite f then Ok f else Raise OverflowError.

End Py.

Import Py.

Declare Scope result_scope.
Delimit Scope result_scope with result.
Notation "x <- c1 ;; c2" := (bind c1 (fun x => c2))
  (at level 100, c1 at next level, right associativity) : result_scope.

(* ====================================================================== *)
(** ** contracts.py *)
(* ====================================================================== *)

Module Contracts.

(** [ibapi.contract.Contract], with the attributes the code reads or sets.
    A fresh [Contract()] has them all empty. *)
Record Contract : Type := {
  symbol : string;
  secType : string;
  currency : string;
  exchange : string
}.

Definition Contract_new : Contract :=
  {| symbol := ""; secType := ""; currency := ""; exchange := "" |}.

Definition Contract_eqb (a b : Contract) : bool :=
  String.eqb (symbol a) (symbol b) && String.eqb (secType a) (secType b)
  && String.eqb (currency a) (currency b)
  && String.eqb (exchange a) (exchange b).

(** What a caller can pass where a list of contracts is expected. *)
Inductive pyobj : Type :=
| ObjContract (c : Contract)
| ObjStr (s : string)
| ObjInt (z : Z)
| ObjNone.

Inductive pyvalue : Type :=
| ValList (items : list pyobj)
| ValObj (o : pyobj).

(** The two concrete classes derived from [IBContracts]. *)
Inductive registry_class : Type :=
| EquityContracts
| FXContracts.

Record IBContracts : Type := {
  cls : registry_class;
  contract_list : list Contract
}.

Definition set_contract_list (l : list Contract) (self : IBContracts)
  : IBContracts :=
  {| cls := cls self; contract_list := l |}.

(** [all(isinstance(i, Contract) for i in value)], keeping the contracts. *)
Fixpoint all_Contract (value : list pyobj) : option (list Contract) :=
  match value with
  | [] => Some []
  | ObjContract c :: rest =>
      match all_Contract rest with
      | Some cs => Some (c :: cs)
      | None => None
      end
  | _ :: _ => None
  end.

(** The [contract_list] setter: the value must be a list, and a non-empty
    list must hold [Contract] instances only. Nothing else is looked at. *)
Definition contract_list_setter (value : pyvalue)
  : result (list Contract) :=
  match value with
  | ValList items =>
      match all_Contract items with
      | Some cs => Ok cs
      | None =>
          Raise (TypeError "Input argument must be a list of Contract instances.")
      end
  | ValObj _ =>
      Raise (TypeError "Input argument must be a list of Contract instances.")
  end.

(** [EquityContracts(value)] and [FXContracts(value)]: neither class
    overrides [__init__]. *)
Definition init (k : registry_class) (value : pyvalue)
  : result IBContracts :=
  (cs <- contract_list_setter value ;;
   Ok {| cls := k; contract_list := cs |})%result.

Definition get_symbols (self : IBContracts) : list string :=
  map symbol (contract_list self).

(** [x in l] for strings. *)
Definition contains (x : string) (l : list string) : bool :=
  existsb (String.eqb x) l.

(** [l.index(x)]: the position of the first occurrence. *)
Fixpoint index (x : string) (l : list string) : option nat :=
  match l with
  | [] => None
  | y :: l' =>
      if String.eqb y x then Some O
      else match index x l' with
           | Some i => Some (S i)
           | None => None
           end
  end.

(** [get_contract] returns [None] (after printing a notice) when the
    symbol is absent. *)
Definition get_contract (sym : string) (self : IBContracts)
  : option Contract :=
  let symbols := get_symbols self in
  if contains sym symbols then
    match index sym symbols with
    | Some i => nth_error (contract_list self) i
    | None => None
    end
  else None.

(** [l.remove(x)]: drops the first element equal to [x]. *)
Fixpoint list_remove (x : Contract) (l : list Contract)
  : result (list Contract) :=
  match l with
  | [] => Raise (ValueError "list.remove(x): x not in list")
  | y :: l' =>
      if Contract_eqb y x then Ok l'
      else (r <- list_remove x l' ;; Ok (y :: r))%result
  end.

(** [self.contract_list.remove(self.get_contract(symbol))]: for an absent
    symbol the argument is [None], which the list does not hold. *)
Definition remove_contract (sym : string) : M IBContracts unit :=
  fun self =>
    match get_contract sym self with
    | None => (Raise (ValueError "list.remove(x): x not in list"), self)
    | Some c =>
        match list_remove c (contract_list self) with
        | Ok l => (Ok tt, set_contract_list l self)
        | Raise e => (Raise e, self)
        end
    end.

(** [add_contract], as each subclass defines it. *)
Definition add_contract (contract : Contract) : M IBContracts unit :=
  fun self =>
    match cls self with
    | EquityContracts =>
        if String.eqb (secType contract) "STK" then
          (Ok tt, set_contract_list (contract_list self ++ [contract]) self)
        else (Raise (ValueError "Contract.secType must be of type STK"), self)
    | FXContracts =>
        if String.eqb (secType contract) "CASH" then
          (Ok tt, set_contract_list (contract_list self ++ [contract]) self)
        else (Raise (ValueError "Contract.secType must be of type CASH"), self)
    end.

(** An omitted keyword argument takes its default. *)
Definition default (d : string) (arg : option string) : string :=
  match arg with
  | Some v => v
  | None => d
  end.

(** [add_contract_from_symbol], as each subclass defines it; [symbol] is a
    [str] by its type here, so only the blank test can refuse it. *)
Definition add_contract_from_symbol
    (sym : string) (cur exch : option string) : M IBContracts unit :=
  fun self =>
    match cls self with
    | EquityContracts =>
        if str_not (strip sym) then
          (Raise (ValueError "Symbol must be a non-empty string."), self)
        else
          add_contract {| symbol := sym; secType := "STK";
                          currency := default "USD" cur;
                          exchange := default "SMART" exch |} self
    | FXContracts =>
        if str_not (strip sym) then
          (Raise (ValueError "Symbol must be a non-empty string."), self)
        else
          add_contract {| symbol := sym; secType := "CASH";
                          currency := default "USD" cur;
                          exchange := default "IDEALPRO" exch |} self
    end.

(** The security type each class stands for, and the class invariant the
    specification asks of a registry. *)
Definition sec_type (k : registry_class) : string :=
  match k with
  | EquityContracts => "STK"
  | FXContracts => "CASH"
  end.

Definition class_consistent (self : IBContracts) : Prop :=
  Forall (fun c => secType c = sec_type (cls self)) (contract_list self).

(** The operations that build and change a registry. *)
Inductive operation : Type :=
| OpAdd (contract : Contract)
| OpAddFromSymbol (sym : string) (cur exch : option string)
| OpRemove (sym : string).

Definition run_operation (op : operation) : M IBContracts unit :=
  match op with
  | OpAdd c => add_contract c
  | OpAddFromSymbol s cur exch => add_contract_from_symbol s cur exch
  | OpRemove s => remove_contract s
  end.

(** A sequence of calls on one registry; a call that raises leaves the
    registry as it is and the caller goes on. *)
Fixpoint run_operations (ops : list operation) (self : IBContracts)
  : IBContracts :=
  match ops with
  | [] => self
  | op :: ops' => run_operations ops' (snd (run_operation op self))
  end.

End Contracts.

(* ====================================================================== *)
(** ** api.py *)
(* ====================================================================== *)

Module Api.

Import Contracts.

(** One bar of a historical series, the row [historicalData] stores. *)
Record BarData : Type := {
  date : string;
  open : float;
  high : float;
  low : float;
  close : float;
  volume : Q
}.

(** The row [position] stores: account, contract, position, average cost. *)
Record PositionRow : Type := {
  row_account : string;
  row_contract : Contract;
  row_position : Q;
  row_avgCost : float
}.

(** A request handed to [EClient] for the broker. *)
Inductive Request : Type :=
| ReqMktData (reqId : option Z) (contract : option Contract)
             (genericTickList : string) (snapshot regulatorySnapshot : bool)
| ReqHistoricalData (reqId : Z) (contract : Contract)
                    (endDateTime durationStr barSizeSetting whatToShow : string)
                    (useRTH formatDate : Z) (keepUpToDate : bool)
| ReqPositions.

(** The identifier a request carries, when it carries one. *)
Definition request_id (r : Request) : option Z :=
  match r with
  | ReqMktData id _ _ _ _ => id
  | ReqHistoricalData id _ _ _ _ _ _ _ _ => Some id
  | ReqPositions => None
  end.

(** The connection object. [_nextreqId] starts at the class attribute 0;
    [nextorderId] does not exist until [nextValidId] has set it. [sent] is
    the record of what [EClient] was asked to send, oldest first. *)
Record IBapi : Type := {
  _nextreqId : option Z;
  nextorderId : option Z;
  data_current : dict float;
  data_hist : list BarData;
  data_account : list PositionRow;
  verbose : bool;
  sent : list Request
}.

Definition IBapi_new (verbose : bool) : IBapi :=
  {| _nextreqId := Some 0; nextorderId := None; data_current := [];
     data_hist := []; data_account := []; verbose := verbose; sent := [] |}.

Definition set_nextreqId (v : option Z) (self : IBapi) : IBapi :=
  {| _nextreqId := v; nextorderId := nextorderId self;
     data_current := data_current self; data_hist := data_hist self;
     data_account := data_account self; verbose := verbose self;
     sent := sent self |}.

Definition set_nextorderId (v : option Z) (self : IBapi) : IBapi :=
  {| _nextreqId := _nextreqId self; nextorderId := v;
     data_current := data_current self; data_hist := data_hist self;
     data_account := data_account self; verbose := verbose self;
     sent := sent self |}.

Definition set_data_current (v : dict float) (self : IBapi) : IBapi :=
  {| _nextreqId := _nextreqId self; nextorderId := nextorderId self;
     data_current := v; data_hist := data_hist self;
     data_account := data_account self; verbose := verbose self;
     sent := sent self |}.

Definition set_data_hist (v : list BarData) (self : IBapi) : IBapi :=
  {| _nextreqId := _nextreqId self; nextorderId := nextorderId self;
     data_current := data_current self; data_hist := v;
     data_account := data_account self; verbose := verbose self;
     sent := sent self |}.

Definition set_data_account (v : list PositionRow) (self : IBapi) : IBapi :=
  {| _nextreqId := _nextreqId self; nextorderId := nextorderId self;
     data_current := data_current self; data_hist := data_hist self;
     data_account := v; verbose := verbose self; sent := sent self |}.

Definition send (r : Request) (self : IBapi) : IBapi :=
  {| _nextreqId := _nextreqId self; nextorderId := nextorderId self;
     data_current := data_current self; data_hist := data_hist self;
     data_account := data_account self; verbose := verbose self;
     sent := sent self ++ [r] |}.

(** The [nextreqId] property: reading it returns the stored value and
    moves the stored value on. *)
Definition nextreqId (self : IBapi) : option Z * IBapi :=
  let id := _nextreqId self in
  match id with
  | None => (id, set_nextreqId (Some 0) self)
  | Some n => (id, set_nextreqId (Some (n + 1)) self)
  end.

Definition clear_data_current (self : IBapi) : IBapi :=
  set_data_current [] self.

Definition clear_data_hist (self : IBapi) : IBapi := set_data_hist [] self.

Definition clear_data_account (self : IBapi) : IBapi :=
  set_data_account [] self.

(** A message from the broker, as the reader thread hands it to the
    [EWrapper] callback of the same name. A tick type is carried by its
    name, the value of [TickTypeEnum.to_str]. *)
Inductive Message : Type :=
| tickPrice (reqId : Z) (tickType : string) (price : float)
| historicalData (reqId : Z) (bar : BarData)
| historicalDataEnd (reqId : Z)
| position (row : PositionRow)
| positionEnd
| nextValidId (orderId : Z).

(** The callbacks of [IBapi]. [positionEnd] only prints, and
    [historicalDataEnd] is not overridden: neither changes the object. No
    callback looks at [reqId] to decide where the data go. *)
Definition callback (self : IBapi) (m : Message) : IBapi :=
  match m with
  | tickPrice _ tickType price =>
      set_data_current (dict_set tickType price (data_current self)) self
  | historicalData _ bar => set_data_hist (data_hist self ++ [bar]) self
  | historicalDataEnd _ => self
  | position row => set_data_account (data_account self ++ [row]) self
  | positionEnd => self
  | nextValidId orderId => set_nextorderId (Some orderId) self
  end.


(** A session: the connection, a clock in milliseconds, and the messages
    the broker will deliver, each with the time at which the reader thread
    runs its callback. The schedule of a running session lists the
    messages in the order in which they arrive, all of them after the
    clock ([scheduled], below); what arrived earlier has had its callback
    run and is in the connection. *)
Record Session : Type := {
  connection : IBapi;
  clock : Z;
  inbound : list (Z * Message)
}.

Definition on_connection (f : IBapi -> IBapi) (w : Session) : Session :=
  {| connection := f (connection w); clock := clock w;
     inbound := inbound w |}.

Definition due (t : Z) (tm : Z * Message) : bool := fst tm <=? t.

(** [time.sleep(secs)]: the caller stops for the given time, and meanwhile
    the reader thread runs the callbacks of what arrives, in the order of
    the schedule: the order of arrival when the session is [scheduled]. *)
Definition sleep (secs : Z) (w : Session) : Session :=
  let t := clock w + 1000 * secs in
  {| connection :=
       fold_left callback (map snd (filter (due t) (inbound w)))
                 (connection w);
     clock := t;
     inbound := filter (fun tm => negb (due t tm)) (inbound w) |}.

(** Times that never go back. *)
Fixpoint ascending (ts : list Z) : Prop :=
  match ts with
  | [] => True
  | t :: rest => Forall (fun t' => t <= t') rest /\ ascending rest
  end.

(** The schedule is in order: the messages are listed as they arrive, and
    all of them arrive after the clock. *)
Definition scheduled (w : Session) : Prop :=
  Forall (fun tm => clock w < fst tm) (inbound w)
  /\ ascending (map fst (inbound w)).




(** Reading [nextreqId] [k] times in a row. *)
Fixpoint read_nextreqId (k : nat) (self : IBapi) : list (option Z) * IBapi :=
  match k with
  | O => ([], self)
  | S k' =>
      let (id, self') := nextreqId self in
      let (ids, self'') := read_nextreqId k' self' in
      (id :: ids, self'')
  end.

(** A message with its request identifier replaced. *)
Definition with_reqId (f : Z -> Z) (m : Message) : Message :=
  match m with
  | tickPrice reqId tickType price => tickPrice (f reqId) tickType price
  | historicalData reqId bar => historicalData (f reqId) bar
  | historicalDataEnd reqId => historicalDataEnd (f reqId)
  | position row => position row
  | positionEnd => positionEnd
  | nextValidId orderId => nextValidId orderId
  end.

(** The session in which the broker's replies carry other identifiers. *)
Definition renumbered (f : Z -> Z) (w : Session) : Session :=
  {| connection := connection w; clock := clock w;
     inbound := map (fun tm => (fst tm, with_reqId f (snd tm))) (inbound w) |}.

(** The price of the last [tickPrice] message for a tick type, if any. *)
Fixpoint last_price (tickType : string) (msgs : list Message)
  : option float :=
  match msgs with
  | [] => None
  | m :: rest =>
      match last_price tickType rest with
      | Some p => Some p
      | None =>
          match m with
          | tickPrice _ t p => if String.eqb t tickType then Some p else None
          | _ => None
          end
      end
  end.

(** Whether a message is a [tickPrice] for the tick type. *)
Definition is_tick (tickType : string) (m : Message) : bool :=
  match m with
  | tickPrice _ t _ => String.eqb t tickType
  | _ => false
  end.

(** The bars the [historicalData] messages of a list carry, in order. *)
Fixpoint bars_of (msgs : list (Z * Message)) : list BarData :=
  match msgs with
  | [] => []
  | (_, historicalData _ bar) :: rest => bar :: bars_of rest
  | _ :: rest => bars_of rest
  end.

(** The messages that arrive after [lo] and not after [hi]. *)
Definition arriving (lo hi : Z) (msgs : list (Z * Message))
  : list (Z * Message) :=
  filter (fun tm => (lo <? fst tm) && (fst tm <=? hi)) msgs.

End Api.

(* ====================================================================== *)
(** ** portfolios.py *)
(* ====================================================================== *)

Module Portfolios.

Import Contracts Api.

(** [ibapi.order.Order], with the attributes [prepare_orders] sets. *)
Record Order : Type := {
  orderId : Z;
  totalQuantity : Z;
  orderType : string;
  action : string
}.

Definition Order_new : Order :=
  {| orderId := 0; totalQuantity := 0; orderType := ""; action := "" |}.

Record IBPortfolio : Type := {
  contracts : IBContracts;
  nav : float
}.

(** The statement under the [for] of [calc_order_quantities], up to the
    value stored for [key]. The operands are evaluated left to right:
    [w_new[key]], [w_init[key]], the product with [nav], [quotes[key]], the
    quotient, and then [int]. *)
Definition calc_order_quantity
    (w_init w_new quotes : dict float) (nav : float) (key : string)
  : result Z :=
  (wn <- getitem w_new key ;;
   wi <- getitem w_init key ;;
   let product := float_mul (float_sub wn wi) nav in
   quote <- getitem quotes key ;;
   quantity <- float_truediv product quote ;;
   float_int quantity)%result.

Fixpoint calc_order_quantities_loop
    (w_init w_new quotes : dict float) (nav : float)
    (ks : list string) (quantities : dict Z) : result (dict Z) :=
  match ks with
  | [] => Ok quantities
  | key :: ks' =>
      (n <- calc_order_quantity w_init w_new quotes nav key ;;
       calc_order_quantities_loop w_init w_new quotes nav ks'
         (dict_set key n quantities))%result
  end.

Definition calc_order_quantities
    (self : IBPortfolio) (w_init w_new quotes : dict float)
    (nav : option float) : result (dict Z) :=
  let nav := match nav with
             | None => Portfolios.nav self
             | Some v => v
             end in
  calc_order_quantities_loop w_init w_new quotes nav (keys w_init) [].

(** The loop of [prepare_orders] over [order_quantities.items()]. Every
    turn reads [connection.nextorderId] and adds one to it, before the test
    on [value]. *)
Fixpoint prepare_orders_loop
    (order_type : string) (items : list (string * Z)) (orders : dict Order)
  : M IBapi (dict Order) :=
  match items with
  | [] => ret orders
  | (key, value) :: rest =>
      fun connection =>
        match nextorderId connection with
        | None =>
            (Raise (AttributeError "nextorderId"), connection)
        | Some id =>
            let connection := set_nextorderId (Some (id + 1)) connection in
            let order := {| orderId := id; totalQuantity := np_abs value;
                            orderType := order_type; action := "" |} in
            if negb (value =? 0) then
              let order := {| orderId := orderId order;
                              totalQuantity := totalQuantity order;
                              orderType := orderType order;
                              action := if value >? 0 then "BUY"
                                        else "SELL" |} in
              prepare_orders_loop order_type rest (dict_set key order orders)
                                  connection
            else prepare_orders_loop order_type rest orders connection
        end
  end.

(** The order the loop files under a key with a non-zero [value] when the
    connection's next order id is [id]. *)
Definition order_for (order_type : string) (id value : Z) : Order :=
  {| orderId := id; totalQuantity := np_abs value; orderType := order_type;
     action := if value >? 0 then "BUY" else "SELL" |}.

(** The orders the loop adds for [items] when it starts at order id [id]:
    every item takes one id, an item with quantity zero leaves no order. *)
Fixpoint orders_of (order_type : string) (id : Z) (items : list (string * Z))
  : dict Order :=
  match items with
  | [] => []
  | (key, value) :: rest =>
      if value =? 0 then orders_of order_type (id + 1) rest
      else (key, order_for order_type id value)
             :: orders_of order_type (id + 1) rest
  end.

Definition prepare_orders
    (self : IBPortfolio) (w_init w_new quotes : dict float)
    (order_type : string) : M IBapi (dict Order) :=
  fun connection =>
    match calc_order_quantities self w_init w_new quotes None with
    | Raise e => (Raise e, connection)
    | Ok order_quantities =>
        prepare_orders_loop order_type order_quantities [] connection
    end.

(** [EquityPortfolio.request_market_data]: one request per symbol, a sleep
    of one second, then a copy of the connection's buffer. *)
Fixpoint request_market_data_loop
    (self : IBPortfolio) (tick_type : string) (symbols : list string)
    (quotes : dict (dict float)) (w : Session)
  : dict (dict float) * Session :=
  match symbols with
  | [] => (quotes, w)
  | sym :: rest =>
      let contract := get_contract sym (contracts self) in
      let (reqId, conn) := nextreqId (connection w) in
      let w := on_connection
                 (fun _ => send (ReqMktData reqId contract tick_type
                                            false false) conn) w in
      let w := sleep 1 w in
      request_market_data_loop self tick_type rest
        (dict_set sym (data_current (connection w)) quotes) w
  end.

Definition request_market_data
    (self : IBPortfolio) (symbols : list string) (tick_type : string)
    (w : Session) : dict (dict float) * Session :=
  let w := on_connection clear_data_current w in
  request_market_data_loop self tick_type symbols [] w.

(** [enumerate(l)]. *)
Fixpoint enumerate_from {A : Type} (i : Z) (l : list A) : list (Z * A) :=
  match l with
  | [] => []
  | x :: l' => (i, x) :: enumerate_from (i + 1) l'
  end.

Definition enumerate {A : Type} (l : list A) : list (Z * A) :=
  enumerate_from 0 l.

(** A row of the data frame [request_historical_data] returns: the bar
    under its parsed date and the symbol it is filed under. *)
Record HistoricalRow : Type := {
  hist_date : Z;
  hist_symbol : string;
  hist_bar : BarData
}.

Section HistoricalData.

(** [pd.to_datetime] on a column of date strings: the time stamps, as
    numbers, or the exception pandas raises when it cannot parse the
    column. Which columns pandas parses is not modelled: the function is a
    parameter of what follows. *)
Variable to_datetime : list string -> result (list Z).

(** The [date] column of one reply; a column without entries has nothing
    to parse. *)
Definition to_datetime_column (dates : list string) : result (list Z) :=
  match dates with
  | [] => Ok []
  | _ :: _ => to_datetime dates
  end.

(** [EquityPortfolio.request_historical_data]. The data frame is the list
    of its rows. The request identifier is the position in the contract
    list plus one. In each turn the dates of the bars read from the buffer
    are parsed, and the exception of a column that does not parse ends the
    call there. *)
Fixpoint request_historical_data_loop
    (durationStr barSizeSetting : string) (items : list (Z * Contract))
    (data_hist : list HistoricalRow) (w : Session)
  : result (list HistoricalRow) * Session :=
  match items with
  | [] => (Ok data_hist, w)
  | (reqId, contract) :: rest =>
      let w := on_connection clear_data_hist w in
      let w := on_connection
                 (send (ReqHistoricalData (reqId + 1) contract ""
                          durationStr barSizeSetting "TRADES" 0 1 false)) w in
      let w := sleep 1 w in
      let bars := Api.data_hist (connection w) in
      match to_datetime_column (map date bars) with
      | Raise e => (Raise e, w)
      | Ok dates =>
          let data_hist_tmp :=
            map (fun p => {| hist_date := fst p;
                             hist_symbol := symbol contract;
                             hist_bar := snd p |})
                (combine dates bars) in
          request_historical_data_loop durationStr barSizeSetting rest
            (data_hist ++ data_hist_tmp) w
      end
  end.

Definition request_historical_data
    (self : IBPortfolio) (durationStr barSizeSetting : string) (w : Session)
  : result (list HistoricalRow) * Session :=
  request_historical_data_loop durationStr barSizeSetting
    (enumerate (contract_list (contracts self))) [] w.

End HistoricalData.


(** For the examples: a date parser that takes the columns of eight-digit
    dates (yyyymmdd) and gives the number the digits spell. *)
Fixpoint digits (s : string) (acc : Z) : option Z :=
  match s with
  | EmptyString => Some acc
  | String c s' =>
      let n := Z.of_N (N_of_ascii c) in
      if (48 <=? n) && (n <=? 57) then digits s' (10 * acc + (n - 48))
      else None
  end.

Fixpoint yyyymmdd (dates : list string) : result (list Z) :=
  match dates with
  | [] => Ok []
  | d :: rest =>
      match (if Nat.eqb (String.length d) 8 then digits d 0 else None) with
      | Some t => (ts <- yyyymmdd rest ;; Ok (t :: ts))%result
      | None => Raise (ValueError "Unknown datetime string format")
      end
  end.

(** An equity portfolio with a net asset value of 1000, for the examples. *)
Definition example_portfolio : IBPortfolio :=
  {| contracts := {| cls := EquityContracts; contract_list := [] |};
     nav := float_of_Z 1000 |}.

Definition aapl : Contract :=
  {| symbol := "AAPL"; secType := "STK"; currency := "USD";
     exchange := "SMART" |}.

Definition msft : Contract :=
  {| symbol := "MSFT"; secType := "STK"; currency := "USD";
     exchange := "SMART" |}.

(** An equity portfolio of two stocks, for the examples. *)
Definition two_stock_portfolio : IBPortfolio :=
  {| contracts := {| cls := EquityContracts; contract_list := [aapl; msft] |};
     nav := float_of_Z 50000 |}.

(** What a caller can pass as [nav]. *)
Inductive pynumber : Type :=
| NumInt (z : Z)
| NumFloat (f : float)
| NumOther.

(** The [nav] setter: an int is converted to a float, anything that is not
    a float after that is refused. *)
Definition nav_setter (value : pynumber) : result float :=
  match value with
  | NumInt z => float_of_int z
  | NumFloat f => Ok f
  | NumOther => Raise (TypeError "Input value must be of type float")
  end.

(** [IBPortfolio.__init__]; the argument is a registry by its type, so the
    [contracts] setter accepts it. *)
Definition IBPortfolio_init (contracts : IBContracts) (nav : pynumber)
  : result IBPortfolio :=
  (v <- nav_setter nav ;;
   Ok {| contracts := contracts; nav := v |})%result.

(** [EquityPortfolio(contracts, nav)]. *)
Definition EquityPortfolio (contracts : IBContracts) (nav : pynumber)
  : result IBPortfolio :=
  match cls contracts with
  | EquityContracts => IBPortfolio_init contracts nav
  | FXContracts =>
      Raise (TypeError "contracts must be an instance of EquityContracts")
  end.

(** The comprehension of [get_quotes]:
    [{symbol: quotes_dict[symbol][tick_type] for symbol in quotes_dict.keys()}]. *)
Fixpoint get_quotes_comprehension
    (quotes_dict : dict (dict float)) (tick_type : string)
    (ks : list string) (acc : dict float) : result (dict float) :=
  match ks with
  | [] => Ok acc
  | sym :: ks' =>
      (d <- getitem quotes_dict sym ;;
       price <- getitem d tick_type ;;
       get_quotes_comprehension quotes_dict tick_type ks'
         (dict_set sym price acc))%result
  end.

(** [get_quotes]: market data for the symbols of the registry, then the
    price of one tick type per symbol; an empty tick type stands for
    CLOSE. *)
Definition get_quotes (self : IBPortfolio) (tick_type : string) (w : Session)
  : result (dict float) * Session :=
  let (quotes_dict, w') :=
    request_market_data self (get_symbols (contracts self)) tick_type w in
  let tick_type :=
    if String.eqb tick_type "" then "CLOSE"%string else tick_type in
  (get_quotes_comprehension quotes_dict tick_type (keys quotes_dict) [], w').

(** A call of [connection.placeOrder]. *)
Record placeOrder_call : Type := {
  call_orderId : Z;
  call_contract : option Contract;
  call_order : Order
}.

(** [place_order]: the call it makes. *)
Definition place_order (contract : option Contract) (order : Order)
  : placeOrder_call :=
  {| call_orderId := orderId order; call_contract := contract;
     call_order := order |}.

(** [place_orders]: the calls of [connection.placeOrder] it makes, in the
    order of [orders.items()]. *)
Definition place_orders (self : IBPortfolio) (orders : dict Order)
  : list placeOrder_call :=
  map (fun item => place_order (get_contract (fst item) (contracts self))
                               (snd item))
      orders.

End Portfolios.

(* ====================================================================== *)
(** ** accounts.py *)
(* ====================================================================== *)

Module Accounts.

Import Contracts Api.

Record IBAccount : Type := {
  account_id : string;
  positions : list PositionRow
}.

(** [IBAccount.request_positions]: clear the buffer, ask, sleep one second,
    copy the buffer. *)
Definition request_positions (self : IBAccount) (w : Session)
  : IBAccount * Session :=
  let w := on_connection clear_data_account w in
  let w := on_connection (send ReqPositions) w in
  let w := sleep 1 w in
  ({| account_id := account_id self;
      positions := data_account (connection w) |}, w).

(** A holding of 100 in a contract, for the examples. *)
Definition holding (c : Contract) : PositionRow :=
  {| row_account := "DU1"; row_contract := c; row_position := 100%Q;
     row_avgCost := float_of_Z 10 |}.

(** [IBAccount(account_id)]; the argument is a [str] by its type. *)
Definition IBAccount_init (account_id : string) : result IBAccount :=
  if str_not (strip account_id) then
    Raise (ValueError "account_id must be a non-empty string.")
  else Ok {| account_id := account_id; positions := [] |}.

(** [df.empty] for the data frame of positions. *)
Definition empty (positions : list PositionRow) : bool :=
  match positions with
  | [] => true
  | _ :: _ => false
  end.

(** [get_equity_contracts]: positions are requested when there are none or
    when [update] is set; the registry is built from the STK contracts of
    the positions. *)
Definition get_equity_contracts (self : IBAccount) (update : bool) (w : Session)
  : result IBContracts * (IBAccount * Session) :=
  let (self, w) := if empty (positions self) || update
                   then request_positions self w
                   else (self, w) in
  (init EquityContracts
     (ValList (map ObjContract
                   (filter (fun contract => String.eqb (secType contract) "STK")
                           (map row_contract (positions self))))),
   (self, w)).

(** [get_equity_portfolio]: the portfolio of those contracts, with
    [nav = np.nan]. *)
Definition get_equity_portfolio (self : IBAccount) (update : bool) (w : Session)
  : result Portfolios.IBPortfolio * (IBAccount * Session) :=
  match get_equity_contracts self update w with
  | (Ok contracts, state) =>
      (Portfolios.EquityPortfolio contracts (Portfolios.NumFloat S754_nan),
       state)
  | (Raise e, state) => (Raise e, state)
  end.

(** A daily bar with one price throughout, for the examples. *)
Definition flat_bar (day : string) (price : Z) : BarData :=
  {| date := day; open := float_of_Z price; high := float_of_Z price;
     low := float_of_Z price; close := float_of_Z price; volume := 1000%Q |}.

End Accounts.

Import Contracts Api Portfolios Accounts.

Open Scope string_scope.
Open Scope list_scope.
Open Scope Z_scope.

(* ====================================================================== *)
(** ** Facts about the runtime *)
(* ====================================================================== *)

Section DictFacts.

Context {V : Type}.

Lemma dict_get_In (key : string) (d : dict V) (v : V) :
  dict_get key d = Some v -> In key (keys d).
Proof.
  induction d as [|[k x] d IH]; simpl; [discriminate|].
  destruct (String.eqb_spec k key) as [->|_]; auto.
Qed.

Lemma In_dict_get (key : string) (d : dict V) :
  In key (keys d) -> exists v, dict_get key d = Some v.
Proof.
  induction d as [|[k x] d IH]; simpl; [tauto|].
  intros [->|H].
  - rewrite String.eqb_refl. eauto.
  - destruct (String.eqb k key); eauto.
Qed.

Lemma dict_get_app_l (key : string) (d d' : dict V) :
  In key (keys d) -> dict_get key (d ++ d') = dict_get key d.
Proof.
  induction d as [|[k x] d IH]; simpl; [tauto|].
  intros [->|H].
  - now rewrite String.eqb_refl.
  - destruct (String.eqb k key); auto.
Qed.

Lemma dict_set_new (key : string) (v : V) (d : dict V) :
  ~ In key (keys d) -> dict_set key v d = d ++ [(key, v)].
Proof.
  induction d as [|[k x] d IH]; simpl; [reflexivity|].
  intros H. destruct (String.eqb_spec k key) as [->|_]; [tauto|].
  rewrite IH; tauto.
Qed.

Lemma dict_get_set_same (key : string) (v : V) (d : dict V) :
  dict_get key (dict_set key v d) = Some v.
Proof.
  induction d as [|[k x] d IH]; simpl.
  - now rewrite String.eqb_refl.
  - destruct (String.eqb k key) eqn:E; simpl; rewrite E; auto.
Qed.

Lemma dict_get_set_other (key key' : string) (v : V) (d : dict V) :
  key <> key' -> dict_get key' (dict_set key v d) = dict_get key' d.
Proof.
  intros N. induction d as [|[k x] d IH]; simpl.
  - destruct (String.eqb_spec key key'); [contradiction|reflexivity].
  - destruct (String.eqb_spec k key) as [->|_]; simpl.
    + destruct (String.eqb_spec key key'); [contradiction|reflexivity].
    + now rewrite IH.
Qed.

Lemma keys_app (d d' : dict V) : keys (d ++ d') = keys d ++ keys d'.
Proof. apply map_app. Qed.

Lemma dict_entries_functional (d : dict V) (key : string) (a b : V) :
  NoDup (keys d) -> In (key, a) d -> In (key, b) d -> a = b.
Proof.
  induction d as [|[k x] d IH]; intros ND Ha Hb.
  - destruct Ha.
  - inversion ND as [|? ? Hk ND']; subst.
    destruct Ha as [Ha|Ha], Hb as [Hb|Hb].
    + congruence.
    + injection Ha as -> ->. elim Hk. now apply (in_map fst) in Hb.
    + injection Hb as -> ->. elim Hk. now apply (in_map fst) in Ha.
    + auto.
Qed.

End DictFacts.

(** *** [int] of a float truncates toward zero *)

Lemma truncation_toward_zero_exact (z : Z) :
  truncation_toward_zero (inject_Z z) z.
Proof.
  split; intros _; split; try apply Qle_refl; rewrite <- Zlt_Qlt; lia.
Qed.

Lemma truncation_toward_zero_unique (q : Q) (z z' : Z) :
  truncation_toward_zero q z -> truncation_toward_zero q z' -> z = z'.
Proof.
  intros [Hp Hn] [Hp' Hn'].
  destruct (Qlt_le_dec q 0) as [L|L].
  - apply Qlt_le_weak in L.
    destruct (Hn L) as [A B], (Hn' L) as [A' B'].
    pose proof (Qlt_le_trans _ _ _ A B') as C.
    pose proof (Qlt_le_trans _ _ _ A' B) as C'.
    rewrite <- Zlt_Qlt in C, C'. lia.
  - destruct (Hp L) as [A B], (Hp' L) as [A' B'].
    pose proof (Qle_lt_trans _ _ _ A B') as C.
    pose proof (Qle_lt_trans _ _ _ A' B) as C'.
    rewrite <- Zlt_Qlt in C, C'. lia.
Qed.

Lemma shiftr_pos_bounds (m p : positive) :
  let d := Zpos (2 ^ p) in
  Z.shiftl (Zpos m) (Zneg p) * d <= Zpos m
  /\ Zpos m < (Z.shiftl (Zpos m) (Zneg p) + 1) * d.
Proof.
  intros d.
  change (Z.shiftl (Zpos m) (Zneg p)) with (Z.shiftr (Zpos m) (Zpos p)).
  rewrite Z.shiftr_div_pow2 by lia.
  assert (Hd : d = 2 ^ Zpos p) by (unfold d; now rewrite Pos2Z.inj_pow).
  rewrite <- Hd.
  assert (0 < d) by (unfold d; lia).
  pose proof (Z.mul_div_le (Zpos m) d ltac:(lia)).
  pose proof (Z.mul_succ_div_gt (Zpos m) d ltac:(lia)).
  split; [lia|]. unfold Z.succ in *. lia.
Qed.

Lemma float_int_truncates (x : float) :
  is_finite x = true ->
  exists z, float_int x = Ok z /\ truncation_toward_zero (float_value x) z.
Proof.
  destruct x as [s|s| |s m e]; simpl; try discriminate; intros _.
  - exists 0. split; [reflexivity|]. apply (truncation_toward_zero_exact 0).
  - eexists; split; [reflexivity|].
    destruct e as [|p|p].
    + replace (Z.shiftl (Zpos m) 0) with (Zpos m * 2 ^ 0)
        by (rewrite Z.shiftl_mul_pow2; lia).
      apply truncation_toward_zero_exact.
    + rewrite Z.shiftl_mul_pow2 by lia. apply truncation_toward_zero_exact.
    + destruct (shiftr_pos_bounds m p) as [A B].
      set (k := Z.shiftl (Zpos m) (Zneg p)) in *.
      assert (0 <= k) by (apply Z.shiftl_nonneg; lia).
      unfold truncation_toward_zero, Qle, Qlt, inject_Z.
      destruct s; simpl cond_Zopp; simpl Qnum; simpl Qden; lia.
Qed.

(* ====================================================================== *)
(** ** Order quantities *)
(* ====================================================================== *)

Lemma calc_order_quantity_ok
    (w_init w_new quotes : dict float) (nav : float) (key : string)
    (wi wn quote : float) :
  dict_get key w_init = Some wi ->
  dict_get key w_new = Some wn ->
  dict_get key quotes = Some quote ->
  is_zero quote = false ->
  calc_order_quantity w_init w_new quotes nav key
  = float_int (float_div (float_mul (float_sub wn wi) nav) quote).
Proof.
  intros Hi Hn Hq Hz. unfold calc_order_quantity, getitem, float_truediv.
  rewrite Hi, Hn, Hq. simpl. now rewrite Hz.
Qed.

Lemma calc_order_quantity_ext
    (w_init w_init' w_new quotes : dict float) (nav : float) (key : string) :
  dict_get key w_init = dict_get key w_init' ->
  calc_order_quantity w_init w_new quotes nav key
  = calc_order_quantity w_init' w_new quotes nav key.
Proof.
  intros E. unfold calc_order_quantity, getitem. now rewrite E.
Qed.

Section CalcLoop.

Variables (w_init w_new quotes : dict float) (nav : float).

Lemma calc_loop_app (ks1 ks2 : list string) (acc : dict Z) :
  calc_order_quantities_loop w_init w_new quotes nav (ks1 ++ ks2) acc
  = bind (calc_order_quantities_loop w_init w_new quotes nav ks1 acc)
         (calc_order_quantities_loop w_init w_new quotes nav ks2).
Proof.
  revert acc. induction ks1 as [|key ks1 IH]; intros acc; simpl.
  - reflexivity.
  - destruct (calc_order_quantity w_init w_new quotes nav key); simpl; auto.
Qed.

Lemma calc_loop_total (ks : list string) (acc : dict Z) :
  (forall key, In key ks ->
     exists z, calc_order_quantity w_init w_new quotes nav key = Ok z) ->
  exists r, calc_order_quantities_loop w_init w_new quotes nav ks acc = Ok r.
Proof.
  revert acc. induction ks as [|key ks IH]; intros acc H; simpl.
  - eauto.
  - destruct (H key (or_introl eq_refl)) as [z ->]. simpl.
    apply IH. intros k Hk. apply H. now right.
Qed.

Lemma calc_loop_inv (ks : list string) (acc r : dict Z) :
  calc_order_quantities_loop w_init w_new quotes nav ks acc = Ok r ->
  NoDup (keys acc ++ ks) ->
  keys r = keys acc ++ ks
  /\ (forall key, In key ks ->
        exists z, calc_order_quantity w_init w_new quotes nav key = Ok z
                  /\ dict_get key r = Some z)
  /\ (forall key, ~ In key ks -> dict_get key r = dict_get key acc).
Proof.
  revert acc. induction ks as [|key ks IH]; intros acc E ND; simpl in E.
  - injection E as <-. rewrite app_nil_r. repeat split; auto.
    intros key [].
  - destruct (calc_order_quantity w_init w_new quotes nav key) as [n|e] eqn:B;
      simpl in E; [|discriminate].
    assert (Hnew : ~ In key (keys acc)).
    { intros Hin. apply NoDup_remove_2 in ND. apply ND.
      apply in_or_app. now left. }
    assert (Hks : ~ In key ks).
    { intros Hin. apply NoDup_remove_2 in ND. apply ND.
      apply in_or_app. now right. }
    rewrite (dict_set_new key n acc Hnew) in E.
    assert (K : keys (acc ++ [(key, n)]) ++ ks = keys acc ++ key :: ks).
    { rewrite keys_app, <- app_assoc. reflexivity. }
    destruct (IH _ E) as (Hk & Hin & Hout).
    { now rewrite K. }
    split; [now rewrite Hk, K|]. split.
    + intros k [<-|Hk']; [|auto].
      exists n. split; [exact B|].
      rewrite (Hout key Hks).
      rewrite <- (dict_set_new key n acc Hnew). apply dict_get_set_same.
    + intros k Hk'. rewrite (Hout k) by (intros ?; apply Hk'; now right).
      rewrite <- (dict_set_new key n acc Hnew).
      apply dict_get_set_other. intros ->. apply Hk'. now left.
Qed.

End CalcLoop.

Lemma calc_loop_ext
    (w_init w_init' w_new quotes : dict float) (nav : float)
    (ks : list string) (acc : dict Z) :
  (forall key, In key ks -> dict_get key w_init = dict_get key w_init') ->
  calc_order_quantities_loop w_init w_new quotes nav ks acc
  = calc_order_quantities_loop w_init' w_new quotes nav ks acc.
Proof.
  revert acc. induction ks as [|key ks IH]; intros acc H; simpl.
  - reflexivity.
  - rewrite (calc_order_quantity_ext w_init w_init') by (apply H; now left).
    destruct (calc_order_quantity w_init' w_new quotes nav key); simpl; auto.
    apply IH. intros k Hk. apply H. now right.
Qed.

(** The quantities of a run that returned: one per key of [w_init], in the
    order of [w_init]. *)
Lemma calc_order_quantities_keys
    (self : IBPortfolio) (w_init w_new quotes : dict float)
    (nav : option float) (quantities : dict Z) :
  NoDup (keys w_init) ->
  calc_order_quantities self w_init w_new quotes nav = Ok quantities ->
  keys quantities = keys w_init.
Proof.
  intros ND E. unfold calc_order_quantities in E.
  now destruct (calc_loop_inv _ _ _ _ _ _ _ E ND) as (K & _).
Qed.

(** C1. For weight maps in which every key of the current weights has a
    target weight and a non-zero quote, and for which the quotient is a
    finite number, [calc_order_quantities] returns a map with the keys of
    the current weights whose value at each key is the binary64 result of
    [(w_new[key] - w_init[key]) * nav / quotes[key]] truncated toward zero.
    With [w_init = {A: 0.5}], [w_new = {A: 0.8}], [quotes = {A: 10}] and
    [nav = 1000] it returns [{A: 30}], and with [w_new = {A: 0.53}] it
    returns [{A: 3}]. *)
Theorem calc_order_quantities_truncates :
  (forall (self : IBPortfolio) (w_init w_new quotes : dict float)
          (nav : option float),
      let nav' := match nav with
                  | None => Portfolios.nav self
                  | Some v => v
                  end in
      NoDup (keys w_init) ->
      (forall key wi, dict_get key w_init = Some wi ->
         exists wn quote,
           dict_get key w_new = Some wn /\ dict_get key quotes = Some quote
           /\ is_zero quote = false
           /\ is_finite (float_div (float_mul (float_sub wn wi) nav') quote)
              = true) ->
      exists quantities,
        calc_order_quantities self w_init w_new quotes nav = Ok quantities
        /\ keys quantities = keys w_init
        /\ forall key wi wn quote,
             dict_get key w_init = Some wi ->
             dict_get key w_new = Some wn ->
             dict_get key quotes = Some quote ->
             exists z,
               dict_get key quantities = Some z
               /\ truncation_toward_zero
                    (float_value
                       (float_div (float_mul (float_sub wn wi) nav') quote))
                    z)
  /\ calc_order_quantities example_portfolio
       [("A", float_lit 5 10)] [("A", float_lit 8 10)]
       [("A", float_of_Z 10)] (Some (float_of_Z 1000))
     = Ok [("A", 30)]
  /\ calc_order_quantities example_portfolio
       [("A", float_lit 5 10)] [("A", float_lit 53 100)]
       [("A", float_of_Z 10)] (Some (float_of_Z 1000))
     = Ok [("A", 3)].
Proof.
  split; [|split; vm_compute; reflexivity].
  intros self w_init w_new quotes nav nav' ND H.
  assert (Hbody : forall key wi,
             dict_get key w_init = Some wi ->
             exists wn quote z,
               dict_get key w_new = Some wn /\ dict_get key quotes = Some quote
               /\ calc_order_quantity w_init w_new quotes nav' key = Ok z
               /\ truncation_toward_zero
                    (float_value
                       (float_div (float_mul (float_sub wn wi) nav') quote))
                    z).
  { intros key wi Hi.
    destruct (H key wi Hi) as (wn & quote & Hn & Hq & Hz & Hf).
    destruct (float_int_truncates _ Hf) as (z & Ez & Tz).
    exists wn, quote, z.
    split; [exact Hn|]. split; [exact Hq|]. split; [|exact Tz].
    now rewrite (calc_order_quantity_ok _ _ _ _ _ _ _ _ Hi Hn Hq Hz). }
  destruct (calc_loop_total w_init w_new quotes nav' (keys w_init) [])
    as [r Er].
  { intros key Hin. destruct (In_dict_get _ _ Hin) as [wi Hi].
    destruct (Hbody key wi Hi) as (wn & quote & z & _ & _ & Ez & _). eauto. }
  exists r. split; [exact Er|].
  destruct (calc_loop_inv _ _ _ _ _ _ _ Er ND) as (K & Hin & _).
  split; [exact K|].
  intros key wi wn quote Hi Hn Hq.
  destruct (Hbody key wi Hi) as (wn' & quote' & z & Hn' & Hq' & Ez & Tz).
  rewrite Hn in Hn'. rewrite Hq in Hq'.
  injection Hn' as <-. injection Hq' as <-.
  destruct (Hin key (dict_get_In _ _ _ Hi)) as (z' & Ez' & Gz').
  rewrite Ez in Ez'. injection Ez' as <-. eauto.
Qed.

Lemma calc_order_quantities_truncates_witness :
  exists quantities,
    calc_order_quantities example_portfolio
      [("A", float_lit 5 10); ("B", float_lit 1 10)]
      [("A", float_lit 8 10); ("B", float_lit 3 10)]
      [("A", float_of_Z 10); ("B", float_of_Z 10)]
      (Some (float_of_Z 1000))
    = Ok quantities
    /\ keys quantities = ["A"; "B"].
Proof.
  destruct (proj1 calc_order_quantities_truncates example_portfolio
              [("A", float_lit 5 10); ("B", float_lit 1 10)]
              [("A", float_lit 8 10); ("B", float_lit 3 10)]
              [("A", float_of_Z 10); ("B", float_of_Z 10)]
              (Some (float_of_Z 1000)))
    as (quantities & E & K & _).
  - repeat constructor; simpl; intuition discriminate.
  - intros key wi. cbn [dict_get].
    destruct (String.eqb_spec "A" key) as [<-|_]; cbv iota.
    + intros [= <-]. exists (float_lit 8 10), (float_of_Z 10).
      repeat split; reflexivity.
    + destruct (String.eqb_spec "B" key) as [<-|_]; cbv iota;
        [|discriminate].
      intros [= <-]. exists (float_lit 3 10), (float_of_Z 10).
      repeat split; reflexivity.
  - exists quantities. split; assumption.
Defined.

(** The arithmetic is the binary64 one: 0.3 - 0.1 rounds to a number just
    below 0.2, and the quantity for these weights is 19. *)
Lemma calc_order_quantities_rounds :
  calc_order_quantities example_portfolio
    [("A", float_lit 1 10)] [("A", float_lit 3 10)]
    [("A", float_of_Z 10)] (Some (float_of_Z 1000))
  = Ok [("A", 19)].
Proof. vm_compute. reflexivity. Qed.

(** *** What the computation raises *)

Lemma calc_order_quantity_missing_quote
    (w_init w_new quotes : dict float) (nav : float) (key : string) :
  In key (keys w_init) ->
  dict_get key quotes = None ->
  calc_order_quantity w_init w_new quotes nav key = Raise (KeyError key).
Proof.
  intros Hin Hq. destruct (In_dict_get _ _ Hin) as [wi Hi].
  unfold calc_order_quantity, getitem. rewrite Hi, Hq.
  destruct (dict_get key w_new); reflexivity.
Qed.

Lemma calc_order_quantity_zero_quote
    (w_init w_new quotes : dict float) (nav : float) (key : string)
    (wn quote : float) :
  In key (keys w_init) ->
  dict_get key w_new = Some wn ->
  dict_get key quotes = Some quote ->
  is_zero quote = true ->
  calc_order_quantity w_init w_new quotes nav key
  = Raise ZeroDivisionError.
Proof.
  intros Hin Hn Hq Hz. destruct (In_dict_get _ _ Hin) as [wi Hi].
  unfold calc_order_quantity, getitem, float_truediv.
  rewrite Hi, Hn, Hq. simpl. now rewrite Hz.
Qed.

Lemma calc_loop_raises
    (w_init w_new quotes : dict float) (nav : float)
    (ks : list string) (acc : dict Z) (key : string) (e : exn) :
  In key ks ->
  calc_order_quantity w_init w_new quotes nav key = Raise e ->
  exists e',
    calc_order_quantities_loop w_init w_new quotes nav ks acc = Raise e'.
Proof.
  intros Hin Hr. revert acc.
  induction ks as [|k ks IH]; intros acc; simpl; [destruct Hin|].
  destruct (calc_order_quantity w_init w_new quotes nav k) as [n|e0] eqn:B;
    simpl; [|eauto].
  destruct Hin as [->|Hin]; [congruence|]. now apply IH.
Qed.

(** The entries before [key] went through: the loop reaches [key] with the
    quantities computed so far. *)
Lemma calc_order_quantities_reaches
    (self : IBPortfolio) (pre post w_new quotes : dict float)
    (key : string) (wi : float) (nav : option float) (quantities : dict Z) :
  let nav' := match nav with
              | None => Portfolios.nav self
              | Some v => v
              end in
  let w_init := pre ++ (key, wi) :: post in
  calc_order_quantities self pre w_new quotes nav = Ok quantities ->
  calc_order_quantities self w_init w_new quotes nav
  = bind (calc_order_quantity w_init w_new quotes nav' key)
      (fun n => calc_order_quantities_loop w_init w_new quotes nav'
                  (keys post) (dict_set key n quantities)).
Proof.
  intros nav' w_init E. unfold calc_order_quantities in *. fold nav' in E |- *.
  unfold w_init at 2. rewrite keys_app, calc_loop_app.
  rewrite (calc_loop_ext w_init pre), E; [reflexivity|].
  intros k Hk. now apply dict_get_app_l.
Qed.

(** C5. [calc_order_quantities] raises when a key of the current weights
    has no quote or a zero quote. When the entries before that key are
    processed without error, the exception is [KeyError] for the key if the
    quote map has no entry for it (the specification's MissingQuote), and
    [ZeroDivisionError] if the key has a target weight and its quote is
    zero (the specification's DivisionByZero). With [quotes = {A: 0}] the
    call raises [ZeroDivisionError], with [quotes = {}] it raises
    [KeyError] for [A]. *)
Theorem calc_order_quantities_errors :
  (forall (self : IBPortfolio) (w_init w_new quotes : dict float)
          (nav : option float) (key : string),
      In key (keys w_init) ->
      dict_get key quotes = None
      \/ (exists quote, dict_get key quotes = Some quote
                        /\ is_zero quote = true) ->
      exists e, calc_order_quantities self w_init w_new quotes nav = Raise e)
  /\ (forall (self : IBPortfolio) (pre post w_new quotes : dict float)
             (key : string) (wi : float) (nav : option float)
             (quantities : dict Z),
         calc_order_quantities self pre w_new quotes nav = Ok quantities ->
         (dict_get key quotes = None ->
          calc_order_quantities self (pre ++ (key, wi) :: post)
            w_new quotes nav
          = Raise (KeyError key))
         /\ (forall wn quote,
               dict_get key w_new = Some wn ->
               dict_get key quotes = Some quote ->
               is_zero quote = true ->
               calc_order_quantities self (pre ++ (key, wi) :: post)
                 w_new quotes nav
               = Raise ZeroDivisionError))
  /\ calc_order_quantities example_portfolio
       [("A", float_lit 5 10)] [("A", float_lit 8 10)]
       [("A", float_of_Z 0)] (Some (float_of_Z 1000))
     = Raise ZeroDivisionError
  /\ calc_order_quantities example_portfolio
       [("A", float_lit 5 10)] [("A", float_lit 8 10)]
       [] (Some (float_of_Z 1000))
     = Raise (KeyError "A").
Proof.
  split; [|split; [|split; vm_compute; reflexivity]].
  - intros self w_init w_new quotes nav key Hin H.
    unfold calc_order_quantities.
    set (nav' := match nav with
                 | None => Portfolios.nav self
                 | Some v => v
                 end).
    assert (exists e, calc_order_quantity w_init w_new quotes nav' key
                      = Raise e) as [e He].
    { destruct H as [Hq|(quote & Hq & Hz)].
      - rewrite calc_order_quantity_missing_quote; eauto.
      - destruct (dict_get key w_new) as [wn|] eqn:Hn.
        + erewrite calc_order_quantity_zero_quote; eauto.
        + exists (KeyError key). unfold calc_order_quantity, getitem.
          now rewrite Hn. }
    eapply calc_loop_raises; eauto.
  - intros self pre post w_new quotes key wi nav quantities E.
    assert (Hin : In key (keys (pre ++ (key, wi) :: post))).
    { rewrite keys_app. apply in_or_app. right. now left. }
    split.
    + intros Hq. rewrite (calc_order_quantities_reaches _ _ _ _ _ _ _ _ _ E).
      now rewrite calc_order_quantity_missing_quote.
    + intros wn quote Hn Hq Hz.
      rewrite (calc_order_quantities_reaches _ _ _ _ _ _ _ _ _ E).
      now erewrite calc_order_quantity_zero_quote by eauto.
Qed.

Lemma calc_order_quantities_errors_witness :
  calc_order_quantities example_portfolio
    [("A", float_lit 5 10); ("B", float_lit 2 10)]
    [("A", float_lit 8 10); ("B", float_lit 3 10)]
    [("A", float_of_Z 10)] (Some (float_of_Z 1000))
  = Raise (KeyError "B")
  /\ calc_order_quantities example_portfolio
       [("A", float_lit 5 10); ("B", float_lit 2 10)]
       [("A", float_lit 8 10); ("B", float_lit 3 10)]
       [("A", float_of_Z 10); ("B", float_of_Z 0)] (Some (float_of_Z 1000))
     = Raise ZeroDivisionError
  /\ exists e,
       calc_order_quantities example_portfolio
         [("A", float_lit 5 10); ("B", float_lit 2 10)]
         [("A", float_lit 8 10); ("B", float_lit 3 10)]
         [("A", float_of_Z 0)] (Some (float_of_Z 1000))
       = Raise e.
Proof.
  split; [|split].
  - apply (proj1 (proj1 (proj2 calc_order_quantities_errors)
                    example_portfolio [("A", float_lit 5 10)] []
                    [("A", float_lit 8 10); ("B", float_lit 3 10)]
                    [("A", float_of_Z 10)] "B" (float_lit 2 10)
                    (Some (float_of_Z 1000)) [("A", 30)] eq_refl)).
    reflexivity.
  - apply (proj2 (proj1 (proj2 calc_order_quantities_errors)
                    example_portfolio [("A", float_lit 5 10)] []
                    [("A", float_lit 8 10); ("B", float_lit 3 10)]
                    [("A", float_of_Z 10); ("B", float_of_Z 0)] "B"
                    (float_lit 2 10) (Some (float_of_Z 1000)) [("A", 30)]
                    eq_refl)
             (float_lit 3 10) (float_of_Z 0)); reflexivity.
  - apply (proj1 calc_order_quantities_errors example_portfolio
             [("A", float_lit 5 10); ("B", float_lit 2 10)]
             [("A", float_lit 8 10); ("B", float_lit 3 10)]
             [("A", float_of_Z 0)] (Some (float_of_Z 1000)) "B").
    + simpl. auto.
    + left. reflexivity.
Defined.

(* ====================================================================== *)
(** ** Order building *)
(* ====================================================================== *)

Lemma set_nextorderId_twice (u v : option Z) (c : IBapi) :
  set_nextorderId v (set_nextorderId u c) = set_nextorderId v c.
Proof. reflexivity. Qed.

Lemma set_nextorderId_same (c : IBapi) (id : Z) :
  nextorderId c = Some id -> set_nextorderId (Some id) c = c.
Proof. destruct c; simpl; intros ->; reflexivity. Qed.

Lemma prepare_orders_loop_eq
    (order_type : string) (items : list (string * Z)) :
  forall (acc : dict Order) (connection : IBapi) (id : Z),
    nextorderId connection = Some id ->
    NoDup (keys acc ++ keys items) ->
    prepare_orders_loop order_type items acc connection
    = (Ok (acc ++ orders_of order_type id items),
       set_nextorderId (Some (id + Z.of_nat (List.length items))) connection).
Proof.
  induction items as [|[key value] rest IH]; intros acc connection id Hid ND.
  - simpl. rewrite app_nil_r, Z.add_0_r.
    now rewrite (set_nextorderId_same _ _ Hid).
  - cbn [prepare_orders_loop orders_of]. rewrite Hid.
    assert (Hnew : ~ In key (keys acc)).
    { intros Hin. apply NoDup_remove_2 in ND. apply ND.
      apply in_or_app. now left. }
    assert (Hlen : id + 1 + Z.of_nat (List.length rest)
                   = id + Z.of_nat (List.length ((key, value) :: rest)))
      by (cbn [List.length]; lia).
    destruct (value =? 0) eqn:Ez; cbn [negb].
    + rewrite (IH acc _ (id + 1)); [|reflexivity|].
      * now rewrite set_nextorderId_twice, Hlen.
      * simpl in ND. now apply NoDup_remove_1 in ND.
    + rewrite (dict_set_new _ _ _ Hnew).
      rewrite (IH _ _ (id + 1)); [|reflexivity|].
      * rewrite set_nextorderId_twice, Hlen, <- app_assoc. reflexivity.
      * rewrite keys_app, <- app_assoc. exact ND.
Qed.

Lemma orders_of_nth
    (order_type : string) (items : list (string * Z)) :
  forall (id : Z) (i : nat) (key : string) (value : Z),
    NoDup (keys items) ->
    nth_error items i = Some (key, value) ->
    value <> 0 ->
    dict_get key (orders_of order_type id items)
    = Some (order_for order_type (id + Z.of_nat i) value).
Proof.
  induction items as [|[k v] rest IH]; intros id i key value ND Hn Hv.
  - destruct i; discriminate.
  - inversion ND as [|? ? Hk ND']; subst. destruct i as [|j]; simpl in Hn.
    + injection Hn as -> ->. cbn [orders_of].
      destruct (Z.eqb_spec value 0); [contradiction|].
      simpl. now rewrite String.eqb_refl, Z.add_0_r.
    + assert (Hne : k <> key).
      { intros ->. apply Hk. apply nth_error_In in Hn.
        now apply (in_map fst) in Hn. }
      replace (id + Z.of_nat (S j)) with (id + 1 + Z.of_nat j) by lia.
      cbn [orders_of].
      destruct (v =? 0); [now apply IH|]. simpl.
      destruct (String.eqb_spec k key); [contradiction|]. now apply IH.
Qed.

Lemma orders_of_keys
    (order_type : string) (items : list (string * Z)) :
  forall (id : Z) (key : string),
    NoDup (keys items) ->
    In key (keys (orders_of order_type id items)) ->
    exists value, dict_get key items = Some value /\ value <> 0.
Proof.
  induction items as [|[k v] rest IH]; intros id key ND Hin.
  - destruct Hin.
  - inversion ND as [|? ? Hk ND']; subst. cbn [orders_of] in Hin.
    assert (Hrest : In key (keys (orders_of order_type (id + 1) rest)) ->
                    exists value,
                      dict_get key ((k, v) :: rest) = Some value
                      /\ value <> 0).
    { intros H. destruct (IH _ _ ND' H) as (value & Hg & Hv).
      exists value. split; [|exact Hv]. simpl.
      destruct (String.eqb_spec k key) as [->|_]; [|exact Hg].
      elim Hk. eapply dict_get_In; eauto. }
    destruct (Z.eqb_spec v 0) as [_|Hv]; [auto|].
    destruct Hin as [<-|Hin]; [|auto].
    exists v. simpl. now rewrite String.eqb_refl.
Qed.

Lemma dict_get_nth {V : Type} (key : string) (d : dict V) (v : V) :
  dict_get key d = Some v -> exists i, nth_error d i = Some (key, v).
Proof.
  induction d as [|[k x] d IH]; simpl; [discriminate|].
  destruct (String.eqb_spec k key) as [->|_].
  - intros [= ->]. now exists O.
  - intros H. destruct (IH H) as [i Hi]. now exists (S i).
Qed.

(** X27. On a connection that has its next order id, the loop of
    [prepare_orders] over a quantity map returns orders for exactly the
    symbols whose quantity is non-zero; the order of such a symbol has
    action BUY for a positive quantity and SELL for a negative one, and its
    total quantity is the absolute value of the quantity (for every
    quantity except -2^63, where the 64-bit absolute value of numpy is not
    the absolute value). For the quantities [{A: 0, B: -4, C: 7}] the
    orders are a SELL of 4 for B and a BUY of 7 for C, and none for A. *)
Theorem prepare_orders_nonzero_only :
  (forall (order_type : string) (quantities : dict Z) (connection : IBapi)
          (id : Z),
      NoDup (keys quantities) ->
      nextorderId connection = Some id ->
      exists orders connection',
        prepare_orders_loop order_type quantities [] connection
        = (Ok orders, connection')
        /\ (forall key,
              In key (keys orders)
              <-> exists value,
                    dict_get key quantities = Some value /\ value <> 0)
        /\ (forall key value,
              dict_get key quantities = Some value ->
              value <> 0 ->
              exists order,
                dict_get key orders = Some order
                /\ action order = (if 0 <? value then "BUY" else "SELL")
                /\ (value <> - 2 ^ 63 ->
                    totalQuantity order = Z.abs value)))
  /\ (forall (connection : IBapi) (id : Z),
         nextorderId connection = Some id ->
         fst (prepare_orders_loop "MKT" [("A", 0); ("B", -4); ("C", 7)] []
                                  connection)
         = Ok [("B", {| orderId := id + 1; totalQuantity := 4;
                        orderType := "MKT"; action := "SELL" |});
               ("C", {| orderId := id + 2; totalQuantity := 7;
                        orderType := "MKT"; action := "BUY" |})]).
Proof.
  split.
  - intros order_type quantities connection id ND Hid.
    rewrite (prepare_orders_loop_eq _ _ [] _ _ Hid ND). cbn [app].
    do 2 eexists. split; [reflexivity|].
    assert (Hget : forall key value,
               dict_get key quantities = Some value -> value <> 0 ->
               exists i, dict_get key (orders_of order_type id quantities)
                         = Some (order_for order_type (id + Z.of_nat i)
                                           value)).
    { intros key value Hg Hv. destruct (dict_get_nth _ _ _ Hg) as [i Hi].
      exists i. now apply orders_of_nth. }
    split.
    + intros key. split; [now apply orders_of_keys|].
      intros (value & Hg & Hv). destruct (Hget _ _ Hg Hv) as [i Hi].
      eapply dict_get_In; eauto.
    + intros key value Hg Hv. destruct (Hget _ _ Hg Hv) as [i Hi].
      eexists. split; [exact Hi|]. split.
      * cbn [order_for action]. now rewrite Z.gtb_ltb.
      * intros Hmin. cbn [order_for totalQuantity]. unfold np_abs.
        destruct (Z.eqb_spec value (- 2 ^ 63)); [contradiction|reflexivity].
  - intros connection id Hid.
    rewrite (prepare_orders_loop_eq "MKT" _ [] _ _ Hid).
    + cbn. replace (id + 1 + 1) with (id + 2) by lia. reflexivity.
    + repeat constructor; simpl; intuition discriminate.
Qed.

Lemma prepare_orders_nonzero_only_witness :
  exists orders,
    fst (prepare_orders_loop "LMT" [("X", 5); ("Y", 0); ("Z", -2)] []
           (set_nextorderId (Some 1) (IBapi_new true)))
    = Ok orders
    /\ (In "Y" (keys orders) -> False)
    /\ (exists order, dict_get "Z" orders = Some order
                      /\ action order = "SELL" /\ totalQuantity order = 2).
Proof.
  destruct (proj1 prepare_orders_nonzero_only "LMT"
              [("X", 5); ("Y", 0); ("Z", -2)]
              (set_nextorderId (Some 1) (IBapi_new true)) 1)
    as (orders & connection' & E & Hkeys & Hord).
  - repeat constructor; simpl; intuition discriminate.
  - reflexivity.
  - exists orders. split; [now rewrite E|]. split.
    + intros Hin. apply Hkeys in Hin. destruct Hin as (value & Hg & Hv).
      simpl in Hg. injection Hg as <-. now apply Hv.
    + destruct (Hord "Z" (-2) eq_refl ltac:(discriminate))
        as (order & Hg & Ha & Hq).
      exists order. split; [exact Hg|]. split; [exact Ha|].
      apply Hq. discriminate.
Defined.

(** C6. The total quantity of an order is not the absolute value of the
    quantity for every quantity map: for the quantity -2^63 the 64-bit
    [np.abs] gives -2^63 back, and the order is a SELL with the negative
    total quantity -2^63. [prepare_orders] gets to that quantity from a
    weight that goes from 1 to 0 at the quote 1 with a net asset value of
    2^63, all of them floats without rounding. *)
Theorem prepare_orders_total_quantity_wraps :
  let self := {| contracts := {| cls := EquityContracts;
                                 contract_list := [] |};
                 nav := float_of_Z (2 ^ 63) |} in
  let w_init := [("A", float_of_Z 1)] in
  let w_new := [("A", float_of_Z 0)] in
  let quotes := [("A", float_of_Z 1)] in
  let connection := set_nextorderId (Some 1) (IBapi_new true) in
  calc_order_quantities self w_init w_new quotes None
  = Ok [("A", - 2 ^ 63)]
  /\ fst (prepare_orders self w_init w_new quotes "MKT" connection)
     = Ok [("A", {| orderId := 1; totalQuantity := - 2 ^ 63;
                    orderType := "MKT"; action := "SELL" |})]
  /\ fst (prepare_orders_loop "MKT" [("A", - 2 ^ 63)] [] connection)
     = Ok [("A", {| orderId := 1; totalQuantity := - 2 ^ 63;
                    orderType := "MKT"; action := "SELL" |})]
  /\ - 2 ^ 63 <> Z.abs (- 2 ^ 63).
Proof.
  intros self w_init w_new quotes connection.
  split; [vm_compute; reflexivity|].
  split; [vm_compute; reflexivity|].
  split; [vm_compute; reflexivity|].
  lia.
Qed.

(** C10. [prepare_orders] takes one order id from the connection for every
    key of the computed quantity map, also for a key whose quantity is zero
    and gets no order: the connection's next order id grows by the number
    of keys of the weights, and the order of the key at position [i] of the
    quantity map has the id [i] places after the first. With three keys of
    which the second has quantity zero, the two orders get the ids 5 and 7
    and the connection is left at 8. *)
Theorem prepare_orders_id_per_key :
  (forall (self : IBPortfolio) (w_init w_new quotes : dict float)
          (order_type : string) (connection : IBapi) (id : Z)
          (order_quantities : dict Z),
      NoDup (keys w_init) ->
      calc_order_quantities self w_init w_new quotes None
      = Ok order_quantities ->
      nextorderId connection = Some id ->
      exists orders connection',
        prepare_orders self w_init w_new quotes order_type connection
        = (Ok orders, connection')
        /\ nextorderId connection'
           = Some (id + Z.of_nat (List.length (keys w_init)))
        /\ (forall i key value,
              nth_error order_quantities i = Some (key, value) ->
              (value = 0 -> ~ In key (keys orders))
              /\ (value <> 0 ->
                  exists order, dict_get key orders = Some order
                                /\ orderId order = id + Z.of_nat i)))
  /\ prepare_orders example_portfolio
       [("A", float_lit 5 10); ("B", float_lit 5 10); ("C", float_of_Z 0)]
       [("A", float_lit 8 10); ("B", float_lit 5 10); ("C", float_lit 7 100)]
       [("A", float_of_Z 10); ("B", float_of_Z 10); ("C", float_of_Z 10)]
       "MKT" (set_nextorderId (Some 5) (IBapi_new true))
     = (Ok [("A", {| orderId := 5; totalQuantity := 30; orderType := "MKT";
                     action := "BUY" |});
            ("C", {| orderId := 7; totalQuantity := 7; orderType := "MKT";
                     action := "BUY" |})],
        set_nextorderId (Some 8) (IBapi_new true)).
Proof.
  split; [|vm_compute; reflexivity].
  intros self w_init w_new quotes order_type connection id order_quantities
         ND E Hid.
  pose proof (calc_order_quantities_keys _ _ _ _ _ _ ND E) as K.
  assert (NDq : NoDup (keys order_quantities)) by now rewrite K.
  unfold prepare_orders. rewrite E.
  rewrite (prepare_orders_loop_eq _ _ [] _ _ Hid NDq). cbn [app].
  do 2 eexists. split; [reflexivity|]. split.
  - cbn [set_nextorderId nextorderId]. rewrite <- K.
    unfold keys. now rewrite length_map.
  - intros i key value Hn. split.
    + intros -> Hin.
      destruct (orders_of_keys _ _ _ _ NDq Hin) as (value & Hg & Hv).
      apply Hv. apply nth_error_In in Hn.
      destruct (dict_get_nth _ _ _ Hg) as [j Hj]. apply nth_error_In in Hj.
      exact (dict_entries_functional _ _ _ _ NDq Hj Hn).
    + intros Hv. eexists. split; [now apply orders_of_nth; eauto|].
      reflexivity.
Qed.

Lemma prepare_orders_id_per_key_witness :
  exists orders connection',
    prepare_orders example_portfolio
      [("A", float_lit 5 10); ("B", float_lit 5 10)]
      [("A", float_lit 5 10); ("B", float_lit 8 10)]
      [("A", float_of_Z 10); ("B", float_of_Z 10)]
      "MKT" (set_nextorderId (Some 11) (IBapi_new false))
    = (Ok orders, connection')
    /\ nextorderId connection' = Some 13
    /\ ~ In "A" (keys orders)
    /\ exists order, dict_get "B" orders = Some order /\ orderId order = 12.
Proof.
  destruct (proj1 prepare_orders_id_per_key example_portfolio
              [("A", float_lit 5 10); ("B", float_lit 5 10)]
              [("A", float_lit 5 10); ("B", float_lit 8 10)]
              [("A", float_of_Z 10); ("B", float_of_Z 10)]
              "MKT" (set_nextorderId (Some 11) (IBapi_new false)) 11
              [("A", 0); ("B", 30)])
    as (orders & connection' & E & Hid & Hord).
  - repeat constructor; simpl; intuition discriminate.
  - vm_compute. reflexivity.
  - reflexivity.
  - exists orders, connection'. split; [exact E|]. split; [exact Hid|]. split.
    + exact (proj1 (Hord 0%nat "A" 0 eq_refl) eq_refl).
    + apply (proj2 (Hord 1%nat "B" 30 eq_refl)). discriminate.
Defined.

(* ====================================================================== *)
(** ** Registries of contracts *)
(* ====================================================================== *)

Lemma contains_In (x : string) (l : list string) :
  contains x l = true <-> In x l.
Proof.
  unfold contains. rewrite existsb_exists. split.
  - intros (y & Hin & E). apply String.eqb_eq in E. now subst.
  - intros Hin. exists x. split; [exact Hin|apply String.eqb_refl].
Qed.

Lemma index_In (x : string) (l : list string) :
  In x l -> exists i, index x l = Some i.
Proof.
  induction l as [|y l IH]; simpl; [tauto|].
  intros H. destruct (String.eqb_spec y x) as [->|N]; [eauto|].
  destruct H as [H|H]; [contradiction|].
  destruct (IH H) as [i ->]. eauto.
Qed.

Lemma index_nth_error (x : string) (l : list Contract) :
  forall i, index x (map symbol l) = Some i ->
            exists c, nth_error l i = Some c /\ symbol c = x.
Proof.
  induction l as [|y l IH]; intros i; simpl; [discriminate|].
  destruct (String.eqb_spec (symbol y) x) as [E|_].
  - intros [= <-]. now exists y.
  - destruct (index x (map symbol l)) as [j|]; [|discriminate].
    intros [= <-]. now apply IH.
Qed.

(** [get_contract] finds the first contract with the symbol. *)
Lemma get_contract_Some (sym : string) (self : IBContracts) (c : Contract) :
  get_contract sym self = Some c ->
  symbol c = sym /\ In c (contract_list self).
Proof.
  unfold get_contract, get_symbols.
  destruct (contains sym (map symbol (contract_list self))); [|discriminate].
  destruct (index sym (map symbol (contract_list self))) as [i|] eqn:Ei;
    [|discriminate].
  intros Hn. destruct (index_nth_error _ _ _ Ei) as (c' & Hc' & Hs).
  rewrite Hn in Hc'. injection Hc' as <-.
  split; [exact Hs|]. eapply nth_error_In; eauto.
Qed.

Lemma get_contract_In (sym : string) (self : IBContracts) :
  In sym (get_symbols self) -> exists c, get_contract sym self = Some c.
Proof.
  intros Hin. unfold get_contract.
  rewrite (proj2 (contains_In _ _) Hin).
  destruct (index_In _ _ Hin) as [i Hi]. rewrite Hi.
  destruct (index_nth_error _ _ _ Hi) as (c & Hc & _). eauto.
Qed.

Lemma list_remove_split (x : Contract) (l l' : list Contract) :
  list_remove x l = Ok l' ->
  exists l1 y l2, l = l1 ++ y :: l2 /\ l' = l1 ++ l2.
Proof.
  revert l'. induction l as [|y l IH]; intros l'; simpl; [discriminate|].
  destruct (Contract_eqb y x).
  - intros [= <-]. now exists [], y, l.
  - destruct (list_remove x l) as [r|e]; simpl; [|discriminate].
    intros [= <-]. destruct (IH r eq_refl) as (l1 & z & l2 & -> & ->).
    now exists (y :: l1), z, l2.
Qed.

Lemma Contract_eqb_refl (c : Contract) : Contract_eqb c c = true.
Proof. unfold Contract_eqb. now rewrite !String.eqb_refl. Qed.

Lemma Contract_eqb_symbol (a b : Contract) :
  Contract_eqb a b = true -> symbol a = symbol b.
Proof.
  unfold Contract_eqb. rewrite !andb_true_iff.
  intros [[[H _] _] _]. now apply String.eqb_eq.
Qed.

(** [remove_contract] takes out the contract [get_contract] returns, the
    first one with the symbol, whether [list.remove] compares contracts by
    identity or by their attributes: no contract before it has the symbol. *)
Lemma remove_contract_first (sym : string) (self : IBContracts) (c : Contract) :
  get_contract sym self = Some c ->
  exists l1 l2,
    contract_list self = l1 ++ c :: l2
    /\ Forall (fun x => symbol x <> sym) l1
    /\ remove_contract sym self = (Ok tt, set_contract_list (l1 ++ l2) self).
Proof.
  intros Hg. unfold remove_contract. rewrite Hg.
  assert (H : exists l1 l2,
             contract_list self = l1 ++ c :: l2
             /\ Forall (fun x => symbol x <> sym) l1
             /\ list_remove c (contract_list self) = Ok (l1 ++ l2)).
  { revert Hg. unfold get_contract, get_symbols.
    generalize (contract_list self) as l.
    induction l as [|y l IH]; simpl; [discriminate|].
    destruct (String.eqb_spec sym (symbol y)) as [Ey|Ny]; simpl.
    - subst sym. rewrite String.eqb_refl. intros [= ->].
      exists [], l. rewrite Contract_eqb_refl. auto.
    - destruct (String.eqb_spec (symbol y) sym) as [E|_];
        [now elim Ny|].
      intros Hg.
      destruct (contains sym (map symbol l)) eqn:Ec; [|discriminate].
      destruct (index sym (map symbol l)) as [i|] eqn:Ei; [|discriminate].
      simpl in Hg.
      assert (Hc : symbol c = sym).
      { destruct (index_nth_error _ _ _ Ei) as (c' & Hc' & Hs).
        rewrite Hg in Hc'. now injection Hc' as <-. }
      destruct (IH Hg) as (l1 & l2 & -> & Hl1 & Hr).
      exists (y :: l1), l2. split; [reflexivity|]. split.
      + constructor; [|exact Hl1]. intros E. now elim Ny.
      + destruct (Contract_eqb y c) eqn:Eyc.
        * apply Contract_eqb_symbol in Eyc. elim Ny. congruence.
        * now rewrite Hr. }
  destruct H as (l1 & l2 & E & Hl1 & ->). now exists l1, l2.
Qed.

Lemma add_contract_inv
    (contract : Contract) (self self' : IBContracts) :
  add_contract contract self = (Ok tt, self') ->
  secType contract = sec_type (cls self)
  /\ self' = set_contract_list (contract_list self ++ [contract]) self.
Proof.
  unfold add_contract. destruct (cls self); simpl;
    [destruct (String.eqb_spec (secType contract) "STK")
    |destruct (String.eqb_spec (secType contract) "CASH")];
    intros E; inversion E; subst; auto.
Qed.

Lemma add_contract_state (contract : Contract) (self : IBContracts) :
  snd (add_contract contract self) = self
  \/ (secType contract = sec_type (cls self)
      /\ snd (add_contract contract self)
         = set_contract_list (contract_list self ++ [contract]) self).
Proof.
  unfold add_contract. destruct (cls self); simpl;
    [destruct (String.eqb_spec (secType contract) "STK")
    |destruct (String.eqb_spec (secType contract) "CASH")];
    simpl; auto.
Qed.

(** A contract built by [add_contract_from_symbol] is added by the
    [add_contract] of the same class, whose test it passes. *)
Lemma add_contract_from_symbol_ok
    (sym : string) (cur exch : option string) (self : IBContracts) :
  str_not (strip sym) = false ->
  exists c,
    symbol c = sym /\ secType c = sec_type (cls self)
    /\ add_contract_from_symbol sym cur exch self
       = (Ok tt, set_contract_list (contract_list self ++ [c]) self).
Proof.
  intros Hs. unfold add_contract_from_symbol, add_contract.
  destruct (cls self) eqn:Ec; rewrite Hs; simpl; eexists;
    (split; [|split; [|reflexivity]]); reflexivity.
Qed.

Lemma add_contract_from_symbol_blank
    (sym : string) (cur exch : option string) (self : IBContracts) :
  str_not (strip sym) = true ->
  add_contract_from_symbol sym cur exch self
  = (Raise (ValueError "Symbol must be a non-empty string."), self).
Proof.
  intros Hs. unfold add_contract_from_symbol.
  destruct (cls self); now rewrite Hs.
Qed.

(** *** [strip] leaves nothing exactly of the blank strings *)

Lemma lstrip_blank (s : string) : whitespace_only s = true -> lstrip s = "".
Proof.
  induction s as [|c s IH]; simpl; [reflexivity|].
  destruct (isspace c); simpl; [exact IH|discriminate].
Qed.

Lemma lstrip_not_blank (s : string) :
  whitespace_only s = false ->
  exists c r, lstrip s = String c r /\ isspace c = false.
Proof.
  induction s as [|c s IH]; simpl; [discriminate|].
  destruct (isspace c) eqn:E; simpl; [exact IH|]. intros _. eauto.
Qed.

Lemma rstrip_not_blank (c : ascii) (r : string) :
  isspace c = false -> str_not (rstrip (String c r)) = false.
Proof.
  intros E. simpl. destruct (rstrip r); [now rewrite E|reflexivity].
Qed.

Lemma strip_blank (s : string) : str_not (strip s) = whitespace_only s.
Proof.
  unfold strip. destruct (whitespace_only s) eqn:E.
  - now rewrite lstrip_blank.
  - destruct (lstrip_not_blank s E) as (c & r & -> & Hc).
    now apply rstrip_not_blank.
Qed.

(** *** The class invariant *)

Lemma class_consistent_add_contract
    (contract : Contract) (self : IBContracts) :
  class_consistent self ->
  class_consistent (snd (add_contract contract self)).
Proof.
  intros H. destruct (add_contract_state contract self) as [->|[Hs ->]];
    [exact H|].
  unfold class_consistent in *. simpl. apply Forall_app. split; auto.
Qed.

Lemma class_consistent_add_contract_from_symbol
    (sym : string) (cur exch : option string) (self : IBContracts) :
  class_consistent self ->
  class_consistent (snd (add_contract_from_symbol sym cur exch self)).
Proof.
  intros H. destruct (str_not (strip sym)) eqn:Hs.
  - now rewrite add_contract_from_symbol_blank.
  - destruct (add_contract_from_symbol_ok sym cur exch self Hs)
      as (c & _ & Hc & ->).
    unfold class_consistent in *. simpl. apply Forall_app. split; auto.
Qed.

Lemma remove_contract_state (sym : string) (self : IBContracts) :
  snd (remove_contract sym self) = self
  \/ exists l1 y l2,
       contract_list self = l1 ++ y :: l2
       /\ snd (remove_contract sym self) = set_contract_list (l1 ++ l2) self.
Proof.
  unfold remove_contract. destruct (get_contract sym self); [|now left].
  destruct (list_remove c (contract_list self)) as [l|e] eqn:E; [|now left].
  right. destruct (list_remove_split _ _ _ E) as (l1 & y & l2 & -> & ->).
  now exists l1, y, l2.
Qed.

Lemma class_consistent_remove_contract (sym : string) (self : IBContracts) :
  class_consistent self ->
  class_consistent (snd (remove_contract sym self)).
Proof.
  intros H. destruct (remove_contract_state sym self)
    as [->|(l1 & y & l2 & E & ->)]; [exact H|].
  unfold class_consistent in *. simpl. rewrite E in H.
  apply Forall_app in H. destruct H as [H1 H2]. inversion H2; subst.
  apply Forall_app. now split.
Qed.

(** Calls of add and remove keep a registry within its class. *)
Lemma class_consistent_run_operations
    (ops : list operation) (self : IBContracts) :
  class_consistent self -> class_consistent (run_operations ops self).
Proof.
  revert self. induction ops as [|op ops IH]; intros self H; simpl; [exact H|].
  apply IH. destruct op; simpl.
  - now apply class_consistent_add_contract.
  - now apply class_consistent_add_contract_from_symbol.
  - now apply class_consistent_remove_contract.
Qed.

(** C8. An instrument whose security type is not the one of the
    registry's class is refused by [add_contract] with the [ValueError]
    that names the class's type (the specification's TypeMismatch), and the
    registry after the call is the registry before it. *)
Theorem add_contract_type_mismatch :
  forall (self : IBContracts) (contract : Contract),
    secType contract <> sec_type (cls self) ->
    add_contract contract self
    = (Raise (ValueError (String.append "Contract.secType must be of type "
                                        (sec_type (cls self)))),
       self).
Proof.
  intros self contract H. unfold add_contract.
  destruct (cls self); simpl in *;
    [destruct (String.eqb_spec (secType contract) "STK")
    |destruct (String.eqb_spec (secType contract) "CASH")];
    [contradiction|reflexivity|contradiction|reflexivity].
Qed.

Lemma add_contract_type_mismatch_witness :
  add_contract
    {| symbol := "EUR"; secType := "CASH"; currency := "USD";
       exchange := "IDEALPRO" |}
    {| cls := EquityContracts;
       contract_list := [{| symbol := "UBSG"; secType := "STK";
                            currency := "CHF"; exchange := "SMART" |}] |}
  = (Raise (ValueError "Contract.secType must be of type STK"),
     {| cls := EquityContracts;
        contract_list := [{| symbol := "UBSG"; secType := "STK";
                             currency := "CHF"; exchange := "SMART" |}] |}).
Proof.
  apply (add_contract_type_mismatch
           {| cls := EquityContracts;
              contract_list := [{| symbol := "UBSG"; secType := "STK";
                                   currency := "CHF";
                                   exchange := "SMART" |}] |}
           {| symbol := "EUR"; secType := "CASH"; currency := "USD";
              exchange := "IDEALPRO" |}).
  simpl. discriminate.
Defined.

(** X28. On a registry whose members have the security type of its class,
    [add_contract_from_symbol] with a symbol that has a character other
    than white space succeeds, and [get_contract] with the same symbol then
    returns a contract with that symbol and the security type of the
    class. A symbol that is empty or white space only is refused with the
    [ValueError] of the symbol test (the specification's InvalidSymbol) and
    the registry is left as it was; the empty string and three spaces are
    such symbols. *)
Theorem add_contract_from_symbol_then_get :
  (forall (self : IBContracts) (sym : string) (cur exch : option string),
      class_consistent self ->
      whitespace_only sym = false ->
      exists self' c,
        add_contract_from_symbol sym cur exch self = (Ok tt, self')
        /\ get_contract sym self' = Some c
        /\ symbol c = sym
        /\ secType c = sec_type (cls self'))
  /\ (forall (self : IBContracts) (sym : string) (cur exch : option string),
         whitespace_only sym = true ->
         add_contract_from_symbol sym cur exch self
         = (Raise (ValueError "Symbol must be a non-empty string."), self))
  /\ whitespace_only "" = true
  /\ whitespace_only "   " = true.
Proof.
  split; [|split; [|split; reflexivity]].
  - intros self sym cur exch Hc Hs.
    rewrite <- strip_blank in Hs.
    pose proof (class_consistent_add_contract_from_symbol sym cur exch self Hc)
      as Hc'.
    destruct (add_contract_from_symbol_ok sym cur exch self Hs)
      as (c0 & Hsym & _ & E).
    rewrite E in Hc' |- *. simpl in Hc'.
    set (self' := set_contract_list (contract_list self ++ [c0]) self) in *.
    destruct (get_contract_In sym self') as [c Hg].
    { unfold get_symbols, self'. simpl. rewrite map_app.
      apply in_or_app. right. simpl. now left. }
    exists self', c. split; [reflexivity|]. split; [exact Hg|].
    destruct (get_contract_Some _ _ _ Hg) as [Hs' Hin].
    split; [exact Hs'|].
    unfold class_consistent in Hc'. rewrite Forall_forall in Hc'. auto.
  - intros self sym cur exch Hs. rewrite <- strip_blank in Hs.
    now apply add_contract_from_symbol_blank.
Qed.

Lemma add_contract_from_symbol_then_get_witness :
  (exists self' c,
      add_contract_from_symbol "NESN" (Some "CHF") None
        {| cls := EquityContracts; contract_list := [] |}
      = (Ok tt, self')
      /\ get_contract "NESN" self' = Some c
      /\ symbol c = "NESN"
      /\ secType c = sec_type (cls self'))
  /\ add_contract_from_symbol " " None None
       {| cls := FXContracts; contract_list := [] |}
     = (Raise (ValueError "Symbol must be a non-empty string."),
        {| cls := FXContracts; contract_list := [] |}).
Proof.
  split.
  - apply (proj1 add_contract_from_symbol_then_get
             {| cls := EquityContracts; contract_list := [] |}
             "NESN" (Some "CHF") None).
    + constructor.
    + reflexivity.
  - apply (proj1 (proj2 add_contract_from_symbol_then_get)
             {| cls := FXContracts; contract_list := [] |} " " None None).
    reflexivity.
Defined.

(** C7. An add by symbol followed by a lookup of the symbol does not
    return a contract of the registry's security type on every registry:
    the constructor accepts an equity registry that holds the CASH contract
    EUR, [add_contract_from_symbol] of the symbol EUR succeeds on it, and
    [get_contract] then returns the first contract with that symbol, the
    CASH contract, not the STK contract that was added. *)
Theorem add_from_symbol_get_other_class :
  let eur := {| symbol := "EUR"; secType := "CASH"; currency := "USD";
                exchange := "IDEALPRO" |} in
  let added := {| symbol := "EUR"; secType := "STK"; currency := "USD";
                  exchange := "SMART" |} in
  let self := {| cls := EquityContracts; contract_list := [eur] |} in
  let self' := {| cls := EquityContracts; contract_list := [eur; added] |} in
  init EquityContracts (ValList [ObjContract eur]) = Ok self
  /\ whitespace_only "EUR" = false
  /\ add_contract_from_symbol "EUR" None None self = (Ok tt, self')
  /\ get_contract "EUR" self' = Some eur
  /\ symbol eur = "EUR"
  /\ secType eur <> sec_type (cls self').
Proof.
  intros eur added self self'.
  repeat split; try reflexivity. discriminate.
Qed.

(** C3. The constructor takes any list of [Contract] instances: an equity
    registry built from a list that holds a CASH contract is accepted and
    does not satisfy the class invariant, which [add_contract] would have
    enforced for the same contract. *)
Theorem init_accepts_other_class :
  let eur := {| symbol := "EUR"; secType := "CASH"; currency := "USD";
                exchange := "IDEALPRO" |} in
  init EquityContracts (ValList [ObjContract eur])
  = Ok {| cls := EquityContracts; contract_list := [eur] |}
  /\ ~ class_consistent {| cls := EquityContracts; contract_list := [eur] |}
  /\ fst (add_contract eur {| cls := EquityContracts; contract_list := [] |})
     = Raise (ValueError "Contract.secType must be of type STK").
Proof.
  intros eur. split; [reflexivity|]. split; [|reflexivity].
  intros H. inversion H as [|? ? Hs _]; subst. discriminate Hs.
Qed.

(** *** Symbols that repeat *)

Lemma NoDup_symbols_remove
    (l1 l2 : list Contract) (y : Contract) :
  NoDup (map symbol (l1 ++ y :: l2)) -> NoDup (map symbol (l1 ++ l2)).
Proof.
  rewrite !map_app. simpl. apply NoDup_remove_1.
Qed.

Lemma NoDup_snoc (x : string) (l : list string) :
  NoDup (l ++ [x]) <-> NoDup l /\ ~ In x l.
Proof.
  split.
  - intros H. pose proof (NoDup_remove _ _ _ H) as [H1 H2].
    rewrite app_nil_r in *. now split.
  - intros [H1 H2]. apply NoDup_app.
    + exact H1.
    + repeat constructor. intros [].
    + intros a Ha [<-|[]]. contradiction.
Qed.

(** C4, as the code has it. A registry whose symbols are distinct keeps
    them distinct under [remove_contract] and under the add of a symbol it
    does not hold; [add_contract] does not look for the symbol, so the add
    of a symbol the registry holds leaves two entries with that symbol. *)
Theorem symbols_distinct_unless_added_twice :
  forall self : IBContracts,
    NoDup (get_symbols self) ->
    (forall contract self',
        add_contract contract self = (Ok tt, self') ->
        (~ In (symbol contract) (get_symbols self) ->
         NoDup (get_symbols self'))
        /\ (In (symbol contract) (get_symbols self) ->
            ~ NoDup (get_symbols self')))
    /\ (forall sym cur exch self',
           add_contract_from_symbol sym cur exch self = (Ok tt, self') ->
           (~ In sym (get_symbols self) -> NoDup (get_symbols self'))
           /\ (In sym (get_symbols self) -> ~ NoDup (get_symbols self')))
    /\ (forall sym, NoDup (get_symbols (snd (remove_contract sym self)))).
Proof.
  intros self ND.
  assert (Hadd : forall c,
             let self' := set_contract_list (contract_list self ++ [c]) self in
             (~ In (symbol c) (get_symbols self) -> NoDup (get_symbols self'))
             /\ (In (symbol c) (get_symbols self) ->
                 ~ NoDup (get_symbols self'))).
  { intros c self'. unfold self', get_symbols. simpl. rewrite map_app. simpl.
    split.
    - intros Hn. apply NoDup_snoc. now split.
    - intros Hin Hnd. apply NoDup_snoc in Hnd. tauto. }
  split; [|split].
  - intros contract self' E. apply add_contract_inv in E.
    destruct E as [_ ->]. apply Hadd.
  - intros sym cur exch self' E.
    destruct (str_not (strip sym)) eqn:Hs.
    + rewrite add_contract_from_symbol_blank in E by exact Hs. discriminate.
    + destruct (add_contract_from_symbol_ok sym cur exch self Hs)
        as (c & <- & _ & E').
      rewrite E' in E. injection E as <-. apply Hadd.
  - intros sym. destruct (remove_contract_state sym self)
      as [->|(l1 & y & l2 & E & ->)]; [exact ND|].
    unfold get_symbols in *. simpl. rewrite E in ND.
    eapply NoDup_symbols_remove; eauto.
Qed.

Lemma symbols_distinct_unless_added_twice_witness :
  NoDup (get_symbols
           (snd (add_contract_from_symbol "ABBN" None None
                   {| cls := EquityContracts;
                      contract_list :=
                        [{| symbol := "NESN"; secType := "STK";
                            currency := "CHF"; exchange := "SMART" |}] |}))).
Proof.
  refine (proj1 (proj1 (proj2 (symbols_distinct_unless_added_twice
                                 {| cls := EquityContracts;
                                    contract_list :=
                                      [{| symbol := "NESN"; secType := "STK";
                                          currency := "CHF";
                                          exchange := "SMART" |}] |} _))
                   "ABBN" None None _ eq_refl) _).
  - repeat constructor. intros [].
  - simpl. intuition discriminate.
Defined.

(** C4, as the specification states it, fails: two adds of one symbol to
    an empty registry leave two entries with that symbol. *)
Lemma symbols_repeat_after_two_adds :
  exists self,
    init EquityContracts (ValList []) = Ok self
    /\ get_symbols
         (run_operations [OpAddFromSymbol "AAPL" None None;
                          OpAddFromSymbol "AAPL" None None] self)
       = ["AAPL"; "AAPL"]
    /\ ~ NoDup (get_symbols
                  (run_operations [OpAddFromSymbol "AAPL" None None;
                                   OpAddFromSymbol "AAPL" None None] self)).
Proof.
  eexists. split; [reflexivity|]. split; [reflexivity|].
  simpl. intros H. inversion H as [|? ? Hn _]; subst. apply Hn. now left.
Qed.

(* ====================================================================== *)
(** ** Request identifiers *)
(* ====================================================================== *)

(** The generator itself counts up: [k] reads in a row from a stored value
    [n] return [n], [n + 1], ... and leave [n + k]. *)
Lemma read_nextreqId_counts (k : nat) :
  forall (self : IBapi) (n : Z),
    _nextreqId self = Some n ->
    fst (read_nextreqId k self)
    = map (fun i => Some (n + Z.of_nat i)) (seq 0 k)
    /\ _nextreqId (snd (read_nextreqId k self)) = Some (n + Z.of_nat k).
Proof.
  induction k as [|k IH]; intros self n Hn.
  - simpl. rewrite Z.add_0_r. now split.
  - cbn [read_nextreqId]. unfold nextreqId. rewrite Hn.
    destruct (IH (set_nextreqId (Some (n + 1)) self) (n + 1) eq_refl)
      as [Hids Hlast].
    destruct (read_nextreqId k (set_nextreqId (Some (n + 1)) self))
      as [ids self''].
    simpl in *. split.
    + rewrite Z.add_0_r. f_equal. rewrite Hids, <- seq_shift, map_map.
      apply map_ext. intros i. f_equal. lia.
    + rewrite Hlast. f_equal. lia.
Qed.

Lemma read_nextreqId_increasing (k : nat) (self : IBapi) (n : Z) :
  _nextreqId self = Some n ->
  forall i j a b,
    (i < j)%nat ->
    nth_error (fst (read_nextreqId k self)) i = Some (Some a) ->
    nth_error (fst (read_nextreqId k self)) j = Some (Some b) ->
    n <= a < b.
Proof.
  intros Hn i j a b Hij Ha Hb.
  destruct (read_nextreqId_counts k self n Hn) as [E _]. rewrite E in Ha, Hb.
  rewrite nth_error_map in Ha, Hb.
  destruct (nth_error (seq 0 k) i) as [x|] eqn:Ex; [|discriminate].
  destruct (nth_error (seq 0 k) j) as [y|] eqn:Ey; [|discriminate].
  injection Ha as <-. injection Hb as <-.
  assert (Hi : (i < List.length (seq 0 k))%nat).
  { apply nth_error_Some. rewrite Ex. discriminate. }
  assert (Hj : (j < List.length (seq 0 k))%nat).
  { apply nth_error_Some. rewrite Ey. discriminate. }
  rewrite length_seq in Hi, Hj.
  rewrite (nth_error_nth' _ 0%nat) in Ex by (rewrite length_seq; lia).
  rewrite (nth_error_nth' _ 0%nat) in Ey by (rewrite length_seq; lia).
  rewrite seq_nth in Ex by lia. rewrite seq_nth in Ey by lia.
  injection Ex as <-. injection Ey as <-. lia.
Qed.

(** C9. The identifiers handed to the broker are not all taken from the
    generator: [request_historical_data] numbers its requests 1, 2, ...
    from the position in the contract list. After market data for two
    symbols (identifiers 0 and 1 from the generator) the historical
    request for the first contract goes out with the identifier 1 again,
    and a second call of [request_historical_data] repeats 1 and 2. *)
Theorem request_ids_reused :
  forall to_datetime : list string -> result (list Z),
  let w0 := {| connection := IBapi_new true; clock := 0; inbound := [] |} in
  let w1 := snd (request_market_data two_stock_portfolio ["AAPL"; "MSFT"]
                                     "" w0) in
  let w2 := snd (request_historical_data to_datetime two_stock_portfolio
                                         "1 Y" "1 day" w1) in
  let w3 := snd (request_historical_data to_datetime two_stock_portfolio
                                         "1 Y" "1 day" w2) in
  map request_id (sent (connection w2)) = [Some 0; Some 1; Some 1; Some 2]
  /\ nth_error (sent (connection w2)) 1
     = Some (ReqMktData (Some 1) (Some msft) "" false false)
  /\ nth_error (sent (connection w2)) 2
     = Some (ReqHistoricalData 1 aapl "" "1 Y" "1 day" "TRADES" 0 1 false)
  /\ map request_id (sent (connection w3))
     = [Some 0; Some 1; Some 1; Some 2; Some 1; Some 2].
Proof.
  intros to_datetime. repeat split; reflexivity.
Qed.

(* ====================================================================== *)
(** ** Waiting for replies *)
(* ====================================================================== *)










Lemma sleep_sent (secs : Z) (w : Session) :
  sent (connection (sleep secs w)) = sent (connection w)
  /\ _nextreqId (connection (sleep secs w)) = _nextreqId (connection w).
Proof.
  unfold sleep. cbn [connection].
  generalize (connection w) as c.
  induction (map snd (filter (due (clock w + 1000 * secs)) (inbound w)))
    as [|m msgs IH]; intros c; simpl; [now split|].
  destruct (IH (callback c m)) as [-> ->]. destruct m; split; reflexivity.
Qed.






(* ====================================================================== *)
(** ** More on registries: construction, lookup, removal *)
(* ====================================================================== *)

Lemma all_Contract_map (l : list Contract) :
  all_Contract (map ObjContract l) = Some l.
Proof.
  induction l as [|c l IH]; simpl; [reflexivity|]. now rewrite IH.
Qed.

Lemma all_Contract_Some (items : list pyobj) (l : list Contract) :
  all_Contract items = Some l -> items = map ObjContract l.
Proof.
  revert l. induction items as [|o items IH]; intros l; simpl.
  - now intros [= <-].
  - destruct o; try discriminate.
    destruct (all_Contract items) as [cs|]; [|discriminate].
    intros [= <-]. simpl. now rewrite (IH cs eq_refl).
Qed.

(** X1. A registry is created from exactly the lists of [Contract]
    instances, the empty list among them, and holds the list as given, in
    its order; any other value ([None], a string, a list with one element
    that is not a [Contract]) raises the [TypeError] of the setter. *)
Theorem init_accepts_exactly_contract_lists :
  forall (k : registry_class) (value : pyvalue),
    (forall l, value = ValList (map ObjContract l) ->
               init k value = Ok {| cls := k; contract_list := l |})
    /\ ((forall l, value <> ValList (map ObjContract l)) ->
        init k value
        = Raise (TypeError
                   "Input argument must be a list of Contract instances.")).
Proof.
  intros k value. split.
  - intros l ->. unfold init, contract_list_setter.
    now rewrite all_Contract_map.
  - intros H. unfold init, contract_list_setter.
    destruct value as [items|o]; [|reflexivity].
    destruct (all_Contract items) as [l|] eqn:E; [|reflexivity].
    elim (H l). f_equal. now apply all_Contract_Some.
Qed.

Lemma init_accepts_exactly_contract_lists_witness :
  init FXContracts (ValList [])
  = Ok {| cls := FXContracts; contract_list := [] |}
  /\ init EquityContracts (ValList [ObjContract aapl; ObjNone])
     = Raise (TypeError
                "Input argument must be a list of Contract instances.").
Proof.
  split.
  - apply (proj1 (init_accepts_exactly_contract_lists FXContracts
                    (ValList [])) []).
    reflexivity.
  - apply (proj2 (init_accepts_exactly_contract_lists EquityContracts
                    (ValList [ObjContract aapl; ObjNone]))).
    intros l E. injection E as E.
    destruct l as [|c [|c' l]]; discriminate E.
Defined.

(** [get_contract] is a search for the first contract with the symbol. *)
Lemma get_contract_find (sym : string) (self : IBContracts) :
  get_contract sym self
  = find (fun c => String.eqb (symbol c) sym) (contract_list self).
Proof.
  unfold get_contract, get_symbols, contains.
  induction (contract_list self) as [|y l IH]; simpl; [reflexivity|].
  rewrite (String.eqb_sym sym (symbol y)).
  destruct (String.eqb (symbol y) sym); simpl; [reflexivity|].
  rewrite <- IH.
  destruct (existsb (String.eqb sym) (map symbol l)); [|reflexivity].
  destruct (index sym (map symbol l)); reflexivity.
Qed.

Lemma find_first {A : Type} (p : A -> bool) (l : list A) (x : A) :
  find p l = Some x <->
  exists l1 l2, l = l1 ++ x :: l2 /\ p x = true
                /\ Forall (fun y => p y = false) l1.
Proof.
  split.
  - induction l as [|y l IH]; simpl; [discriminate|].
    destruct (p y) eqn:E.
    + intros [= ->]. exists [], l. auto.
    + intros H. destruct (IH H) as (l1 & l2 & -> & Hx & Hl1).
      exists (y :: l1), l2. auto.
  - intros (l1 & l2 & -> & Hx & Hl1).
    induction Hl1 as [|y l1 Hy _ IH]; simpl.
    + now rewrite Hx.
    + now rewrite Hy.
Qed.

Lemma find_none_symbols (sym : string) (l : list Contract) :
  find (fun c => String.eqb (symbol c) sym) l = None <->
  ~ In sym (map symbol l).
Proof.
  induction l as [|y l IH]; simpl; [tauto|].
  destruct (String.eqb_spec (symbol y) sym) as [E|N].
  - split; [discriminate|]. intros H. elim H. now left.
  - rewrite IH. tauto.
Qed.

Lemma get_contract_absent (sym : string) (self : IBContracts) :
  ~ In sym (get_symbols self) -> get_contract sym self = None.
Proof.
  intros H. rewrite get_contract_find. now apply find_none_symbols.
Qed.

(** X2. [get_contract] returns the first contract of the list that has the
    symbol, also when several have it, and returns [None] exactly when no
    contract has the symbol. *)
Theorem get_contract_first_match :
  forall (sym : string) (self : IBContracts),
    (forall c,
        get_contract sym self = Some c <->
        exists l1 l2,
          contract_list self = l1 ++ c :: l2 /\ symbol c = sym
          /\ Forall (fun x => symbol x <> sym) l1)
    /\ (get_contract sym self = None <-> ~ In sym (get_symbols self)).
Proof.
  intros sym self. rewrite get_contract_find. split.
  - intros c. rewrite find_first. split.
    + intros (l1 & l2 & E & Hc & Hl1). exists l1, l2.
      split; [exact E|]. split; [now apply String.eqb_eq|].
      eapply Forall_impl; [|exact Hl1].
      intros x Hx. now apply String.eqb_neq.
    + intros (l1 & l2 & E & Hc & Hl1). exists l1, l2.
      split; [exact E|]. split; [now apply String.eqb_eq|].
      eapply Forall_impl; [|exact Hl1].
      intros x Hx. now apply String.eqb_neq.
  - apply find_none_symbols.
Qed.

Lemma get_contract_first_match_witness :
  get_contract "AAPL"
    {| cls := EquityContracts;
       contract_list :=
         [msft; aapl;
          {| symbol := "AAPL"; secType := "STK"; currency := "EUR";
             exchange := "SMART" |}] |}
  = Some aapl.
Proof.
  apply (proj1 (get_contract_first_match "AAPL" _)).
  exists [msft],
    [{| symbol := "AAPL"; secType := "STK"; currency := "EUR";
        exchange := "SMART" |}].
  split; [reflexivity|]. split; [reflexivity|].
  repeat constructor. discriminate.
Defined.

(** X3. [remove_contract] with a symbol the registry does not hold raises
    the [ValueError] of [list.remove] and leaves the registry as it was. *)
Theorem remove_contract_absent :
  forall (sym : string) (self : IBContracts),
    ~ In sym (get_symbols self) ->
    remove_contract sym self
    = (Raise (ValueError "list.remove(x): x not in list"), self).
Proof.
  intros sym self H. unfold remove_contract.
  now rewrite (get_contract_absent sym self H).
Qed.

Lemma remove_contract_absent_witness :
  remove_contract "NESN"
    {| cls := EquityContracts; contract_list := [aapl; msft] |}
  = (Raise (ValueError "list.remove(x): x not in list"),
     {| cls := EquityContracts; contract_list := [aapl; msft] |}).
Proof.
  apply remove_contract_absent. simpl. intuition discriminate.
Defined.

Lemma find_remove_other {A : Type} (p : A -> bool) (l1 l2 : list A) (x : A) :
  p x = false -> find p (l1 ++ x :: l2) = find p (l1 ++ l2).
Proof.
  intros Hx. induction l1 as [|y l1 IH]; simpl.
  - now rewrite Hx.
  - destruct (p y); auto.
Qed.

(** X4. [remove_contract] with a symbol the registry holds takes out the
    first contract with that symbol and nothing else: later contracts with
    the symbol stay, and the lookup of every other symbol is what it was. *)
Theorem remove_contract_takes_first :
  forall (sym : string) (self : IBContracts),
    In sym (get_symbols self) ->
    exists l1 c l2,
      contract_list self = l1 ++ c :: l2
      /\ symbol c = sym
      /\ Forall (fun x => symbol x <> sym) l1
      /\ remove_contract sym self
         = (Ok tt, {| cls := cls self; contract_list := l1 ++ l2 |})
      /\ forall sym',
           sym' <> sym ->
           get_contract sym' {| cls := cls self; contract_list := l1 ++ l2 |}
           = get_contract sym' self.
Proof.
  intros sym self Hin.
  destruct (get_contract_In sym self Hin) as [c Hg].
  destruct (get_contract_Some _ _ _ Hg) as [Hs _].
  destruct (remove_contract_first _ _ _ Hg) as (l1 & l2 & E & Hl1 & Hr).
  exists l1, c, l2. repeat split; auto.
  intros sym' Hne. rewrite !get_contract_find. simpl. rewrite E.
  symmetry. apply find_remove_other.
  apply String.eqb_neq. congruence.
Qed.

Lemma remove_contract_takes_first_witness :
  exists l1 c l2,
    [msft; aapl; aapl] = l1 ++ c :: l2
    /\ symbol c = "AAPL"
    /\ remove_contract "AAPL"
         {| cls := EquityContracts; contract_list := [msft; aapl; aapl] |}
       = (Ok tt, {| cls := EquityContracts; contract_list := l1 ++ l2 |}).
Proof.
  destruct (remove_contract_takes_first "AAPL"
              {| cls := EquityContracts;
                 contract_list := [msft; aapl; aapl] |})
    as (l1 & c & l2 & E & Hs & Hl1 & Hr & _).
  - simpl. auto.
  - exists l1, c, l2. auto.
Defined.

Lemma list_remove_last (c : Contract) (l : list Contract) :
  Forall (fun x => symbol x <> symbol c) l ->
  list_remove c (l ++ [c]) = Ok l.
Proof.
  induction 1 as [|y l Hy _ IH]; simpl.
  - now rewrite Contract_eqb_refl.
  - destruct (Contract_eqb y c) eqn:E.
    + apply Contract_eqb_symbol in E. contradiction.
    + now rewrite IH.
Qed.

Lemma find_app_last {A : Type} (p : A -> bool) (l : list A) (x : A) :
  find p (l ++ [x])
  = match find p l with
    | Some y => Some y
    | None => if p x then Some x else None
    end.
Proof.
  induction l as [|y l IH]; simpl; [reflexivity|].
  destruct (p y); auto.
Qed.

(** X5. Adding a symbol the registry does not hold and removing it again
    gives back the registry as it was. *)
Theorem add_then_remove_restores :
  forall (self : IBContracts) (sym : string) (cur exch : option string),
    ~ In sym (get_symbols self) ->
    whitespace_only sym = false ->
    exists self',
      add_contract_from_symbol sym cur exch self = (Ok tt, self')
      /\ remove_contract sym self' = (Ok tt, self).
Proof.
  intros self sym cur exch Hn Hs. rewrite <- strip_blank in Hs.
  destruct (add_contract_from_symbol_ok sym cur exch self Hs)
    as (c & Hc & _ & E).
  eexists. split; [exact E|].
  unfold remove_contract. rewrite get_contract_find. simpl.
  rewrite find_app_last.
  rewrite (proj2 (find_none_symbols sym (contract_list self)) Hn).
  rewrite Hc, String.eqb_refl.
  rewrite list_remove_last.
  - destruct self; reflexivity.
  - rewrite Forall_forall. intros x Hx E'. apply Hn.
    unfold get_symbols. rewrite <- Hc, <- E'. now apply in_map.
Qed.

Lemma add_then_remove_restores_witness :
  exists self',
    add_contract_from_symbol "NESN" (Some "CHF") None
      {| cls := EquityContracts; contract_list := [aapl] |}
    = (Ok tt, self')
    /\ remove_contract "NESN" self'
       = (Ok tt, {| cls := EquityContracts; contract_list := [aapl] |}).
Proof.
  apply add_then_remove_restores.
  - simpl. intuition discriminate.
  - reflexivity.
Defined.

(** X6. A contract that is added goes behind the ones the registry holds:
    [get_contract] still returns, for every symbol the registry held, the
    contract it returned before, also when the added contract has that
    symbol. *)
Theorem add_contract_keeps_lookups :
  forall (self : IBContracts) (contract : Contract) (sym : string),
    In sym (get_symbols self) ->
    get_contract sym (snd (add_contract contract self))
    = get_contract sym self.
Proof.
  intros self contract sym Hin.
  destruct (add_contract_state contract self) as [->|[_ ->]]; [reflexivity|].
  rewrite !get_contract_find. simpl. rewrite find_app_last.
  destruct (find (fun c => String.eqb (symbol c) sym) (contract_list self))
    eqn:E; [reflexivity|].
  apply find_none_symbols in E. contradiction.
Qed.

Lemma add_contract_keeps_lookups_witness :
  get_contract "AAPL"
    (snd (add_contract
            {| symbol := "AAPL"; secType := "STK"; currency := "EUR";
               exchange := "SMART" |}
            {| cls := EquityContracts; contract_list := [aapl; msft] |}))
  = Some aapl.
Proof.
  rewrite (add_contract_keeps_lookups
             {| cls := EquityContracts; contract_list := [aapl; msft] |}
             {| symbol := "AAPL"; secType := "STK"; currency := "EUR";
                exchange := "SMART" |} "AAPL").
  - reflexivity.
  - simpl. auto.
Defined.

(** X7. Whatever calls of add and remove are made, with whatever
    arguments and whether they raise or not, a registry whose members have
    the security type of its class stays such a registry of the same
    class. *)
Theorem registry_stays_in_class :
  forall (ops : list operation) (self : IBContracts),
    class_consistent self ->
    class_consistent (run_operations ops self)
    /\ cls (run_operations ops self) = cls self.
Proof.
  intros ops self H. split; [now apply class_consistent_run_operations|].
  clear H. revert self. induction ops as [|op ops IH]; intros self; simpl.
  - reflexivity.
  - rewrite IH. destruct op; simpl.
    + destruct (add_contract_state contract self) as [->|[_ ->]];
        reflexivity.
    + destruct (str_not (strip sym)) eqn:Hs.
      * now rewrite add_contract_from_symbol_blank.
      * destruct (add_contract_from_symbol_ok sym cur exch self Hs)
          as (c & _ & _ & ->).
        reflexivity.
    + destruct (remove_contract_state sym self)
        as [->|(l1 & y & l2 & _ & ->)]; reflexivity.
Qed.

Lemma registry_stays_in_class_witness :
  class_consistent
    (run_operations
       [OpAddFromSymbol "NESN" None None;
        OpAdd {| symbol := "EUR"; secType := "CASH"; currency := "USD";
                 exchange := "IDEALPRO" |};
        OpRemove "ABBN"; OpAddFromSymbol " " None None; OpRemove "AAPL"]
       {| cls := EquityContracts; contract_list := [aapl; msft] |}).
Proof.
  apply registry_stays_in_class.
  repeat constructor.
Defined.

(* ====================================================================== *)
(** ** More on the connection: identifiers and callbacks *)
(* ====================================================================== *)

Lemma NoDup_map_injective {A B : Type} (f : A -> B) (l : list A) :
  (forall x y, f x = f y -> x = y) -> NoDup l -> NoDup (map f l).
Proof.
  intros Hf. induction 1 as [|x l Hx _ IH]; simpl; constructor; auto.
  intros Hin. apply in_map_iff in Hin. destruct Hin as (y & E & Hy).
  apply Hf in E. now subst.
Qed.

(** X8. Reads of [nextreqId] never return the same identifier twice: from
    a stored value [n], any number of reads in a row returns integers, none
    below [n], each greater than all returned before it. *)
Theorem nextreqId_fresh :
  forall (k : nat) (self : IBapi) (n : Z),
    _nextreqId self = Some n ->
    NoDup (fst (read_nextreqId k self))
    /\ (forall id, In id (fst (read_nextreqId k self)) ->
                   exists a, id = Some a /\ n <= a)
    /\ (forall i j a b,
           (i < j)%nat ->
           nth_error (fst (read_nextreqId k self)) i = Some (Some a) ->
           nth_error (fst (read_nextreqId k self)) j = Some (Some b) ->
           a < b).
Proof.
  intros k self n Hn.
  destruct (read_nextreqId_counts k self n Hn) as [E _].
  split; [|split].
  - rewrite E. apply NoDup_map_injective; [|apply seq_NoDup].
    intros x y [= H]. lia.
  - intros id Hin. rewrite E in Hin. apply in_map_iff in Hin.
    destruct Hin as (i & <- & _). eexists. split; [reflexivity|]. lia.
  - intros i j a b Hij Ha Hb.
    now destruct (read_nextreqId_increasing k self n Hn i j a b Hij Ha Hb).
Qed.

Lemma nextreqId_fresh_witness :
  NoDup (fst (read_nextreqId 5 (IBapi_new true))).
Proof.
  apply (proj1 (nextreqId_fresh 5 (IBapi_new true) 0 eq_refl)).
Defined.

Lemma data_current_callback (c : IBapi) (m : Message) (tick : string) :
  dict_get tick (data_current (callback c m))
  = match m with
    | tickPrice _ t p =>
        if String.eqb t tick then Some p else dict_get tick (data_current c)
    | _ => dict_get tick (data_current c)
    end.
Proof.
  destruct m; simpl; try reflexivity.
  destruct (String.eqb_spec tickType tick) as [->|N].
  - apply dict_get_set_same.
  - now apply dict_get_set_other.
Qed.

(** X9. The price the connection holds for a tick type after a run of
    callbacks is the price of the last [tickPrice] message for that type,
    whatever request the message answers; without such a message it is the
    price held before. *)
Theorem tickPrice_last_wins :
  forall (msgs : list Message) (c : IBapi) (tick : string),
    dict_get tick (data_current (fold_left callback msgs c))
    = match last_price tick msgs with
      | Some p => Some p
      | None => dict_get tick (data_current c)
      end.
Proof.
  induction msgs as [|m msgs IH]; intros c tick; simpl; [reflexivity|].
  rewrite IH. destruct (last_price tick msgs); [reflexivity|].
  rewrite data_current_callback. destruct m; try reflexivity.
  destruct (String.eqb tickType tick); reflexivity.
Qed.

Lemma callback_with_reqId (f : Z -> Z) (c : IBapi) (m : Message) :
  callback c (with_reqId f m) = callback c m.
Proof. destruct m; reflexivity. Qed.

Lemma fold_callback_with_reqId (f : Z -> Z) (msgs : list (Z * Message)) :
  forall c : IBapi,
    fold_left callback
      (map snd (map (fun tm => (fst tm, with_reqId f (snd tm))) msgs)) c
    = fold_left callback (map snd msgs) c.
Proof.
  induction msgs as [|[t m] msgs IH]; intros c; simpl; [reflexivity|].
  now rewrite callback_with_reqId, IH.
Qed.

Lemma filter_map_time (f : Z -> Z) (p : Z -> bool) (msgs : list (Z * Message)) :
  filter (fun tm => p (fst tm))
         (map (fun tm => (fst tm, with_reqId f (snd tm))) msgs)
  = map (fun tm => (fst tm, with_reqId f (snd tm)))
        (filter (fun tm => p (fst tm)) msgs).
Proof.
  induction msgs as [|[t m] msgs IH]; simpl; [reflexivity|].
  destruct (p t); simpl; now rewrite IH.
Qed.

Lemma sleep_renumbered (f : Z -> Z) (secs : Z) (w : Session) :
  sleep secs (renumbered f w) = renumbered f (sleep secs w).
Proof.
  unfold sleep, renumbered, due. simpl. f_equal.
  - rewrite (filter_map_time f (fun t => t <=? clock w + 1000 * secs)).
    apply fold_callback_with_reqId.
  - apply (filter_map_time f
             (fun t => negb (t <=? clock w + 1000 * secs))).
Qed.

Lemma request_market_data_loop_renumbered
    (f : Z -> Z) (self : IBPortfolio) (tick_type : string)
    (symbols : list string) :
  forall (quotes : dict (dict float)) (w : Session),
    request_market_data_loop self tick_type symbols quotes (renumbered f w)
    = (fst (request_market_data_loop self tick_type symbols quotes w),
       renumbered f
         (snd (request_market_data_loop self tick_type symbols quotes w))).
Proof.
  induction symbols as [|sym rest IH]; intros quotes w.
  - reflexivity.
  - cbn [request_market_data_loop].
    change (connection (renumbered f w)) with (connection w).
    destruct (nextreqId (connection w)) as [reqId conn].
    change (on_connection
              (fun _ => send (ReqMktData reqId (get_contract sym
                                                  (contracts self))
                                         tick_type false false) conn)
              (renumbered f w))
      with (renumbered f
              (on_connection
                 (fun _ => send (ReqMktData reqId (get_contract sym
                                                     (contracts self))
                                            tick_type false false) conn)
                 w)).
    rewrite sleep_renumbered, IH. reflexivity.
Qed.

Lemma request_historical_data_loop_renumbered
    (to_datetime : list string -> result (list Z))
    (f : Z -> Z) (durationStr barSizeSetting : string)
    (items : list (Z * Contract)) :
  forall (rows : list HistoricalRow) (w : Session),
    request_historical_data_loop to_datetime durationStr barSizeSetting
                                 items rows (renumbered f w)
    = (fst (request_historical_data_loop to_datetime durationStr
                                         barSizeSetting items rows w),
       renumbered f
         (snd (request_historical_data_loop to_datetime durationStr
                                            barSizeSetting items rows w))).
Proof.
  induction items as [|[reqId contract] rest IH]; intros rows w.
  - reflexivity.
  - cbn [request_historical_data_loop].
    change (on_connection
              (send (ReqHistoricalData (reqId + 1) contract "" durationStr
                                       barSizeSetting "TRADES" 0 1 false))
              (on_connection clear_data_hist (renumbered f w)))
      with (renumbered f
              (on_connection
                 (send (ReqHistoricalData (reqId + 1) contract ""
                                          durationStr barSizeSetting
                                          "TRADES" 0 1 false))
                 (on_connection clear_data_hist w))).
    rewrite sleep_renumbered.
    match goal with
    | |- context [renumbered f ?w2] =>
        change (connection (renumbered f w2)) with (connection w2)
    end.
    match goal with
    | |- context [to_datetime_column ?td ?col] =>
        destruct (to_datetime_column td col)
    end; [apply IH|reflexivity].
Qed.

(** X10. Replies are never matched with the request they answer: the
    quotes of [request_market_data] and the rows of
    [request_historical_data] are the same when the broker's replies carry
    any other request identifiers. *)
Theorem replies_not_matched_by_reqId :
  forall (f : Z -> Z) (self : IBPortfolio) (w : Session),
    (forall symbols tick_type,
        fst (request_market_data self symbols tick_type (renumbered f w))
        = fst (request_market_data self symbols tick_type w))
    /\ (forall to_datetime durationStr barSizeSetting,
           fst (request_historical_data to_datetime self durationStr
                                        barSizeSetting (renumbered f w))
           = fst (request_historical_data to_datetime self durationStr
                                          barSizeSetting w)).
Proof.
  intros f self w. split.
  - intros symbols tick_type. unfold request_market_data.
    change (on_connection clear_data_current (renumbered f w))
      with (renumbered f (on_connection clear_data_current w)).
    now rewrite request_market_data_loop_renumbered.
  - intros to_datetime durationStr barSizeSetting.
    unfold request_historical_data.
    now rewrite request_historical_data_loop_renumbered.
Qed.

(* ====================================================================== *)
(** ** More on order quantities *)
(* ====================================================================== *)

Lemma calc_loop_ext_all
    (w_init w_new w_new' quotes quotes' : dict float) (nav : float)
    (ks : list string) :
  (forall key, In key ks ->
     dict_get key w_new = dict_get key w_new'
     /\ dict_get key quotes = dict_get key quotes') ->
  forall acc,
    calc_order_quantities_loop w_init w_new quotes nav ks acc
    = calc_order_quantities_loop w_init w_new' quotes' nav ks acc.
Proof.
  induction ks as [|key ks IH]; intros H acc; simpl; [reflexivity|].
  destruct (H key (or_introl eq_refl)) as [Hn Hq].
  assert (E : calc_order_quantity w_init w_new quotes nav key
              = calc_order_quantity w_init w_new' quotes' nav key).
  { unfold calc_order_quantity, getitem. now rewrite Hn, Hq. }
  rewrite E. destruct (calc_order_quantity w_init w_new' quotes' nav key);
    simpl; [|reflexivity].
  apply IH. intros k Hk. apply H. now right.
Qed.

(** X11. Only the symbols of the current weights count: target weights
    and quotes of other symbols have no effect on the result, so a symbol
    that is only in the target weights gets no quantity and raises
    nothing. *)
Theorem calc_order_quantities_ignores_other_symbols :
  forall (self : IBPortfolio) (w_init w_new w_new' quotes quotes' : dict float)
         (nav : option float),
    (forall key, In key (keys w_init) ->
       dict_get key w_new = dict_get key w_new'
       /\ dict_get key quotes = dict_get key quotes') ->
    calc_order_quantities self w_init w_new quotes nav
    = calc_order_quantities self w_init w_new' quotes' nav.
Proof.
  intros self w_init w_new w_new' quotes quotes' nav H.
  unfold calc_order_quantities. now apply calc_loop_ext_all.
Qed.

Lemma calc_order_quantities_ignores_other_symbols_witness :
  calc_order_quantities example_portfolio
    [("A", float_lit 5 10)]
    [("A", float_lit 8 10); ("B", float_lit 2 10)]
    [("A", float_of_Z 10); ("B", float_of_Z 0)] None
  = calc_order_quantities example_portfolio
      [("A", float_lit 5 10)] [("A", float_lit 8 10)]
      [("A", float_of_Z 10)] None.
Proof.
  apply calc_order_quantities_ignores_other_symbols.
  intros key [<-|[]]. split; reflexivity.
Defined.

(** X12. A key of the current weights without a target weight raises
    [KeyError] for that key when the entries before it are processed
    without error, whatever the quotes hold for it. *)
Theorem calc_order_quantities_missing_target :
  forall (self : IBPortfolio) (pre post w_new quotes : dict float)
         (key : string) (wi : float) (nav : option float)
         (quantities : dict Z),
    calc_order_quantities self pre w_new quotes nav = Ok quantities ->
    dict_get key w_new = None ->
    calc_order_quantities self (pre ++ (key, wi) :: post) w_new quotes nav
    = Raise (KeyError key).
Proof.
  intros self pre post w_new quotes key wi nav quantities E Hn.
  rewrite (calc_order_quantities_reaches _ _ _ _ _ _ _ _ _ E).
  unfold calc_order_quantity, getitem. now rewrite Hn.
Qed.

Lemma calc_order_quantities_missing_target_witness :
  calc_order_quantities example_portfolio
    [("A", float_lit 5 10); ("B", float_lit 2 10)]
    [("A", float_lit 8 10)]
    [("A", float_of_Z 10); ("B", float_of_Z 0)] None
  = Raise (KeyError "B").
Proof.
  apply (calc_order_quantities_missing_target example_portfolio
           [("A", float_lit 5 10)] [] [("A", float_lit 8 10)]
           [("A", float_of_Z 10); ("B", float_of_Z 0)] "B" (float_lit 2 10)
           None [("A", 30)]); reflexivity.
Defined.

Lemma float_mul_nan (x nav : float) :
  is_nan nav = true -> float_mul x nav = S754_nan.
Proof. destruct nav; try discriminate. now destruct x. Qed.

Lemma float_div_nan (quote : float) : float_div S754_nan quote = S754_nan.
Proof. reflexivity. Qed.

Lemma calc_order_quantities_nan :
  forall (self : IBPortfolio) (w_init w_new quotes : dict float)
         (nav : option float) (key : string) (wi : float) (rest : dict float),
    is_nan (match nav with
            | None => Portfolios.nav self
            | Some v => v
            end) = true ->
    w_init = (key, wi) :: rest ->
    (exists e, calc_order_quantities self w_init w_new quotes nav = Raise e)
    /\ (forall wn quote,
           dict_get key w_new = Some wn ->
           dict_get key quotes = Some quote ->
           is_zero quote = false ->
           calc_order_quantities self w_init w_new quotes nav
           = Raise (ValueError "cannot convert float NaN to integer")).
Proof.
  intros self w_init w_new quotes nav key wi rest Hnan ->.
  unfold calc_order_quantities.
  set (nav' := match nav with
               | None => Portfolios.nav self
               | Some v => v
               end) in *.
  cbn [keys map fst calc_order_quantities_loop].
  assert (Hv : forall wn quote,
             dict_get key w_new = Some wn ->
             dict_get key quotes = Some quote ->
             is_zero quote = false ->
             calc_order_quantity ((key, wi) :: rest) w_new quotes nav' key
             = Raise (ValueError "cannot convert float NaN to integer")).
  { intros wn quote Hn Hq Hz.
    rewrite (calc_order_quantity_ok _ _ _ _ _ wi wn quote); auto.
    - now rewrite (float_mul_nan _ _ Hnan).
    - simpl. now rewrite String.eqb_refl. }
  assert (Hin : In key (keys ((key, wi) :: rest))) by (simpl; now left).
  split.
  - destruct (dict_get key w_new) as [wn|] eqn:Hn.
    + destruct (dict_get key quotes) as [quote|] eqn:Hq.
      * destruct (is_zero quote) eqn:Hz.
        -- rewrite (calc_order_quantity_zero_quote _ _ _ _ _ wn quote
                      Hin Hn Hq Hz).
           simpl. eauto.
        -- rewrite (Hv wn quote eq_refl eq_refl Hz). simpl. eauto.
      * rewrite (calc_order_quantity_missing_quote _ _ _ _ _ Hin Hq).
        simpl. eauto.
    + unfold calc_order_quantity, getitem. rewrite Hn. simpl. eauto.
  - intros wn quote Hn Hq Hz. now rewrite (Hv wn quote Hn Hq Hz).
Qed.

(** X13. With a net asset value that is NaN no quantity is ever computed:
    for weights that are not empty the call raises, and it raises the
    [ValueError] of [int] on a NaN when the first key has a target weight
    and a quote that is not zero. *)
Theorem calc_order_quantities_nan_nav :
  forall (self : IBPortfolio) (w_init w_new quotes : dict float)
         (nav : option float) (key : string) (wi : float) (rest : dict float),
    is_nan (match nav with
            | None => Portfolios.nav self
            | Some v => v
            end) = true ->
    w_init = (key, wi) :: rest ->
    (exists e, calc_order_quantities self w_init w_new quotes nav = Raise e)
    /\ (forall wn quote,
           dict_get key w_new = Some wn ->
           dict_get key quotes = Some quote ->
           is_zero quote = false ->
           calc_order_quantities self w_init w_new quotes nav
           = Raise (ValueError "cannot convert float NaN to integer")).
Proof. exact calc_order_quantities_nan. Qed.

Lemma calc_order_quantities_nan_nav_witness :
  calc_order_quantities
    {| contracts := {| cls := EquityContracts; contract_list := [] |};
       nav := S754_nan |}
    [("A", float_lit 5 10); ("B", float_lit 5 10)]
    [("A", float_lit 8 10)] [("A", float_of_Z 10)] None
  = Raise (ValueError "cannot convert float NaN to integer").
Proof.
  apply (proj2 (calc_order_quantities_nan_nav
                  {| contracts := {| cls := EquityContracts;
                                     contract_list := [] |};
                     nav := S754_nan |}
                  [("A", float_lit 5 10); ("B", float_lit 5 10)]
                  [("A", float_lit 8 10)] [("A", float_of_Z 10)] None
                  "A" (float_lit 5 10) [("B", float_lit 5 10)]
                  eq_refl eq_refl)
           (float_lit 8 10) (float_of_Z 10)); reflexivity.
Defined.

Lemma quantity_zero_nav (x nav quote : float) :
  is_finite x = true -> is_zero nav = true ->
  is_zero quote = false -> is_nan quote = false ->
  float_int (float_div (float_mul x nav) quote) = Ok 0.
Proof.
  destruct x, nav, quote; simpl; try discriminate; reflexivity.
Qed.

Lemma In_dict_get_NoDup {V : Type} (d : dict V) (key : string) (v : V) :
  NoDup (keys d) -> In (key, v) d -> dict_get key d = Some v.
Proof.
  intros ND Hin. destruct (In_dict_get key d) as [v' Hv'].
  { now apply (in_map fst) in Hin. }
  destruct (dict_get_nth _ _ _ Hv') as [i Hi]. apply nth_error_In in Hi.
  now rewrite (dict_entries_functional _ _ _ _ ND Hin Hi).
Qed.

Lemma orders_of_all_zero
    (order_type : string) (items : list (string * Z)) :
  (forall key value, In (key, value) items -> value = 0) ->
  forall id, orders_of order_type id items = [].
Proof.
  induction items as [|[k v] rest IH]; intros H id; simpl; [reflexivity|].
  rewrite (H k v (or_introl eq_refl)). simpl.
  apply IH. intros key value Hin. eapply H. right. exact Hin.
Qed.

Lemma all_zero_map (r : dict Z) :
  (forall key value, In (key, value) r -> value = 0) ->
  r = map (fun key => (key, 0)) (keys r).
Proof.
  induction r as [|[k v] r IH]; intros H; simpl; [reflexivity|].
  rewrite (H k v (or_introl eq_refl)). f_equal.
  apply IH. intros key value Hin. eapply H. right. exact Hin.
Qed.

(** X14. A portfolio with a net asset value of zero (the default) orders
    nothing: for weights whose differences are finite and quotes that are
    neither zero nor NaN every quantity is 0, and [prepare_orders] returns
    no order, though it still takes one order id per key. *)
Theorem zero_nav_orders_nothing :
  forall (self : IBPortfolio) (w_init w_new quotes : dict float)
         (order_type : string) (connection : IBapi) (id : Z),
    is_zero (nav self) = true ->
    NoDup (keys w_init) ->
    (forall key wi, dict_get key w_init = Some wi ->
       exists wn quote,
         dict_get key w_new = Some wn /\ dict_get key quotes = Some quote
         /\ is_finite (float_sub wn wi) = true
         /\ is_zero quote = false /\ is_nan quote = false) ->
    nextorderId connection = Some id ->
    calc_order_quantities self w_init w_new quotes None
    = Ok (map (fun key => (key, 0)) (keys w_init))
    /\ prepare_orders self w_init w_new quotes order_type connection
       = (Ok [],
          set_nextorderId (Some (id + Z.of_nat (List.length w_init)))
                          connection).
Proof.
  intros self w_init w_new quotes order_type connection id Hnav ND H Hid.
  assert (Hbody : forall key, In key (keys w_init) ->
             calc_order_quantity w_init w_new quotes (nav self) key = Ok 0).
  { intros key Hin. destruct (In_dict_get _ _ Hin) as [wi Hi].
    destruct (H key wi Hi) as (wn & quote & Hn & Hq & Hf & Hz & Hnn).
    rewrite (calc_order_quantity_ok _ _ _ _ _ _ _ _ Hi Hn Hq Hz).
    now apply quantity_zero_nav. }
  assert (E : calc_order_quantities self w_init w_new quotes None
              = Ok (map (fun key => (key, 0)) (keys w_init))).
  { unfold calc_order_quantities.
    destruct (calc_loop_total w_init w_new quotes (nav self) (keys w_init) [])
      as [r Er].
    { intros key Hin. rewrite (Hbody key Hin). eauto. }
    rewrite Er. f_equal.
    destruct (calc_loop_inv _ _ _ _ _ _ _ Er ND) as (K & Hin & _).
    simpl in K. rewrite <- K. apply all_zero_map.
    intros key value Hkv.
    assert (Hk : In key (keys w_init)).
    { rewrite <- K. now apply (in_map fst) in Hkv. }
    destruct (Hin key Hk) as (z & Ez & Gz).
    rewrite (Hbody key Hk) in Ez. injection Ez as <-.
    rewrite (In_dict_get_NoDup r key value) in Gz.
    - now injection Gz.
    - now rewrite K.
    - exact Hkv. }
  split; [exact E|].
  unfold prepare_orders. rewrite E.
  rewrite (prepare_orders_loop_eq order_type _ [] connection id Hid).
  - rewrite orders_of_all_zero.
    + rewrite length_map. unfold keys. now rewrite length_map.
    + intros key value Hin. apply in_map_iff in Hin.
      now destruct Hin as (k & [= _ <-] & _).
  - simpl. unfold keys. rewrite map_map. simpl. now rewrite map_id.
Qed.

Lemma zero_nav_orders_nothing_witness :
  prepare_orders
    {| contracts := {| cls := EquityContracts; contract_list := [] |};
       nav := float_of_Z 0 |}
    [("A", float_lit 5 10); ("B", float_lit 2 10)]
    [("A", float_lit 8 10); ("B", float_lit 1 10)]
    [("A", float_of_Z 10); ("B", float_of_Z 20)]
    "MKT" (set_nextorderId (Some 3) (IBapi_new true))
  = (Ok [], set_nextorderId (Some 5) (IBapi_new true)).
Proof.
  refine (proj2 (zero_nav_orders_nothing
                   {| contracts := {| cls := EquityContracts;
                                      contract_list := [] |};
                      nav := float_of_Z 0 |}
                   [("A", float_lit 5 10); ("B", float_lit 2 10)]
                   [("A", float_lit 8 10); ("B", float_lit 1 10)]
                   [("A", float_of_Z 10); ("B", float_of_Z 20)]
                   "MKT" (set_nextorderId (Some 3) (IBapi_new true)) 3
                   eq_refl _ _ eq_refl)).
  - repeat constructor; simpl; intuition discriminate.
  - intros key wi. cbn [dict_get].
    destruct (String.eqb_spec "A" key) as [<-|_]; cbv iota.
    + intros [= <-]. exists (float_lit 8 10), (float_of_Z 10).
      repeat split; reflexivity.
    + destruct (String.eqb_spec "B" key) as [<-|_]; cbv iota;
        [|discriminate].
      intros [= <-]. exists (float_lit 1 10), (float_of_Z 20).
      repeat split; reflexivity.
Defined.

(* ====================================================================== *)
(** ** More on orders: identifiers, failure, placing *)
(* ====================================================================== *)

Lemma orders_of_bounds
    (order_type : string) (items : list (string * Z)) :
  forall (id : Z) (key : string) (order : Order),
    In (key, order) (orders_of order_type id items) ->
    id <= orderId order < id + Z.of_nat (List.length items).
Proof.
  induction items as [|[k v] rest IH]; intros id key order Hin.
  - destruct Hin.
  - cbn [orders_of List.length] in *.
    assert (Hrest : In (key, order) (orders_of order_type (id + 1) rest) ->
                    id <= orderId order
                    < id + Z.of_nat (S (List.length rest))).
    { intros H. apply IH in H. lia. }
    destruct (v =? 0); [auto|].
    destruct Hin as [[= <- <-]|Hin]; [simpl; lia|auto].
Qed.

Lemma orders_of_increasing
    (order_type : string) (items : list (string * Z)) :
  forall (id : Z) (i j : nat) (a b : string * Order),
    (i < j)%nat ->
    nth_error (orders_of order_type id items) i = Some a ->
    nth_error (orders_of order_type id items) j = Some b ->
    orderId (snd a) < orderId (snd b).
Proof.
  induction items as [|[k v] rest IH]; intros id i j a b Hij Ha Hb.
  - destruct i; discriminate.
  - cbn [orders_of] in *. destruct (v =? 0); [eauto|].
    destruct j as [|j]; [lia|]. simpl in Hb. destruct i as [|i].
    + injection Ha as <-. simpl. apply nth_error_In in Hb.
      destruct b as [kb ob]. apply orders_of_bounds in Hb. simpl. lia.
    + simpl in Ha. apply (IH (id + 1) i j); auto. lia.
Qed.

(** X15. The orders that [prepare_orders] builds carry order ids that are
    all different: each lies between the connection's next order id and
    that id plus the number of keys, and in the order of the result the
    ids grow strictly. *)
Theorem prepare_orders_ids_increase :
  forall (order_type : string) (quantities : dict Z) (connection : IBapi)
         (id : Z),
    NoDup (keys quantities) ->
    nextorderId connection = Some id ->
    exists orders connection',
      prepare_orders_loop order_type quantities [] connection
      = (Ok orders, connection')
      /\ (forall key order,
             In (key, order) orders ->
             id <= orderId order < id + Z.of_nat (List.length quantities))
      /\ (forall i j a b,
             (i < j)%nat ->
             nth_error orders i = Some a ->
             nth_error orders j = Some b ->
             orderId (snd a) < orderId (snd b)).
Proof.
  intros order_type quantities connection id ND Hid.
  rewrite (prepare_orders_loop_eq _ _ [] _ _ Hid ND). cbn [app].
  do 2 eexists. split; [reflexivity|]. split.
  - apply orders_of_bounds.
  - apply orders_of_increasing.
Qed.

Lemma prepare_orders_ids_increase_witness :
  exists orders,
    fst (prepare_orders_loop "MKT" [("A", 3); ("B", 0); ("C", -1)] []
           (set_nextorderId (Some 40) (IBapi_new true)))
    = Ok orders
    /\ forall key order, In (key, order) orders -> 40 <= orderId order < 43.
Proof.
  destruct (prepare_orders_ids_increase "MKT"
              [("A", 3); ("B", 0); ("C", -1)]
              (set_nextorderId (Some 40) (IBapi_new true)) 40)
    as (orders & connection' & E & Hb & _).
  - repeat constructor; simpl; intuition discriminate.
  - reflexivity.
  - exists orders. split; [now rewrite E|exact Hb].
Defined.

Lemma prepare_orders_loop_succeeds
    (order_type : string) (items : list (string * Z)) :
  forall (acc : dict Order) (connection : IBapi) (id : Z),
    nextorderId connection = Some id ->
    exists orders,
      prepare_orders_loop order_type items acc connection
      = (Ok orders,
         set_nextorderId (Some (id + Z.of_nat (List.length items)))
                         connection).
Proof.
  induction items as [|[key value] rest IH]; intros acc connection id Hid.
  - exists acc. simpl. rewrite Z.add_0_r.
    now rewrite (set_nextorderId_same _ _ Hid).
  - cbn [prepare_orders_loop]. rewrite Hid.
    assert (Hlen : id + 1 + Z.of_nat (List.length rest)
                   = id + Z.of_nat (List.length ((key, value) :: rest)))
      by (cbn [List.length]; lia).
    destruct (negb (value =? 0)).
    + edestruct (IH (dict_set key
                       {| orderId := id; totalQuantity := np_abs value;
                          orderType := order_type;
                          action := if value >? 0 then "BUY" else "SELL" |}
                       acc)
                    (set_nextorderId (Some (id + 1)) connection) (id + 1))
        as [orders E]; [reflexivity|].
      exists orders. cbn [orderId totalQuantity orderType].
      now rewrite E, set_nextorderId_twice, Hlen.
    + edestruct (IH acc (set_nextorderId (Some (id + 1)) connection)
                    (id + 1)) as [orders E]; [reflexivity|].
      exists orders. now rewrite E, set_nextorderId_twice, Hlen.
Qed.

(** X16. A call of [prepare_orders] that raises takes nothing from the
    connection, which is left as it was. On a connection that has no next
    order id yet the call raises [AttributeError] as soon as the weights
    have one key, and returns no order and raises nothing when they have
    none. *)
Theorem prepare_orders_failure_leaves_connection :
  forall (self : IBPortfolio) (w_init w_new quotes : dict float)
         (order_type : string) (connection : IBapi),
    (forall e connection',
        prepare_orders self w_init w_new quotes order_type connection
        = (Raise e, connection') ->
        connection' = connection)
    /\ (nextorderId connection = None ->
        forall quantities,
          calc_order_quantities self w_init w_new quotes None
          = Ok quantities ->
          prepare_orders self w_init w_new quotes order_type connection
          = match quantities with
            | [] => (Ok [], connection)
            | _ :: _ => (Raise (AttributeError "nextorderId"), connection)
            end).
Proof.
  intros self w_init w_new quotes order_type connection.
  unfold prepare_orders. split.
  - intros e connection'.
    destruct (calc_order_quantities self w_init w_new quotes None)
      as [quantities|e0]; [|now intros [= _ <-]].
    destruct quantities as [|[key value] rest]; [discriminate|].
    destruct (nextorderId connection) as [id|] eqn:Hid.
    + destruct (prepare_orders_loop_succeeds order_type ((key, value) :: rest)
                  [] connection id Hid) as [orders ->].
      discriminate.
    + cbn [prepare_orders_loop]. rewrite Hid. now intros [= _ <-].
  - intros Hid quantities ->.
    destruct quantities as [|[key value] rest]; [reflexivity|].
    cbn [prepare_orders_loop]. now rewrite Hid.
Qed.

Lemma prepare_orders_failure_leaves_connection_witness :
  prepare_orders example_portfolio
    [("A", float_lit 5 10)] [("A", float_lit 8 10)] [("A", float_of_Z 10)]
    "MKT" (IBapi_new true)
  = (Raise (AttributeError "nextorderId"), IBapi_new true).
Proof.
  apply (proj2 (prepare_orders_failure_leaves_connection example_portfolio
                  [("A", float_lit 5 10)] [("A", float_lit 8 10)]
                  [("A", float_of_Z 10)] "MKT" (IBapi_new true))
           eq_refl [("A", 30)]).
  vm_compute. reflexivity.
Defined.

(** X17. [place_orders] hands the broker one order per entry, in the order
    of the dict and under the order's own id, so the orders of
    [prepare_orders] reach the broker with strictly growing order ids. The
    contract is the registry's first one for the symbol; a symbol the
    registry does not hold is not refused, its order is placed with no
    contract. *)
Theorem place_orders_after_prepare :
  forall (self : IBPortfolio) (order_type : string) (quantities : dict Z)
         (connection : IBapi) (id : Z),
    NoDup (keys quantities) ->
    nextorderId connection = Some id ->
    exists orders connection',
      prepare_orders_loop order_type quantities [] connection
      = (Ok orders, connection')
      /\ map call_order (place_orders self orders) = map snd orders
      /\ (forall i j a b,
             (i < j)%nat ->
             nth_error (place_orders self orders) i = Some a ->
             nth_error (place_orders self orders) j = Some b ->
             id <= call_orderId a < call_orderId b)
      /\ (forall i key order,
             nth_error orders i = Some (key, order) ->
             nth_error (place_orders self orders) i
             = Some {| call_orderId := orderId order;
                       call_contract := get_contract key (contracts self);
                       call_order := order |})
      /\ (forall i key order,
             nth_error orders i = Some (key, order) ->
             ~ In key (get_symbols (contracts self)) ->
             nth_error (place_orders self orders) i
             = Some {| call_orderId := orderId order;
                       call_contract := None; call_order := order |}).
Proof.
  intros self order_type quantities connection id ND Hid.
  rewrite (prepare_orders_loop_eq _ _ [] _ _ Hid ND). cbn [app].
  set (orders := orders_of order_type id quantities).
  pose proof (orders_of_bounds order_type quantities id) as Hb.
  pose proof (orders_of_increasing order_type quantities id) as Hinc.
  fold orders in Hb, Hinc.
  do 2 eexists. split; [reflexivity|].
  assert (Hnth : forall i key order,
             nth_error orders i = Some (key, order) ->
             nth_error (place_orders self orders) i
             = Some {| call_orderId := orderId order;
                       call_contract := get_contract key (contracts self);
                       call_order := order |}).
  { intros i key order Hi. unfold place_orders.
    rewrite nth_error_map, Hi. reflexivity. }
  split; [|split; [|split; [exact Hnth|]]].
  - unfold place_orders. rewrite map_map. apply map_ext. now intros [k o].
  - intros i j a b Hij Ha Hb'. unfold place_orders in Ha, Hb'.
    rewrite nth_error_map in Ha, Hb'.
    destruct (nth_error orders i) as [[ka oa]|] eqn:Ei; [|discriminate].
    destruct (nth_error orders j) as [[kb ob]|] eqn:Ej; [|discriminate].
    injection Ha as <-. injection Hb' as <-. simpl.
    pose proof (Hinc i j _ _ Hij Ei Ej) as Hlt. simpl in Hlt.
    apply nth_error_In in Ei. apply Hb in Ei. lia.
  - intros i key order Hi Hn. rewrite (Hnth i key order Hi).
    now rewrite (get_contract_absent key (contracts self) Hn).
Qed.

Lemma place_orders_after_prepare_witness :
  exists orders,
    fst (prepare_orders_loop "MKT" [("AAPL", 3); ("NESN", -2)] []
           (set_nextorderId (Some 7) (IBapi_new true)))
    = Ok orders
    /\ map call_order (place_orders two_stock_portfolio orders)
       = map snd orders.
Proof.
  destruct (place_orders_after_prepare two_stock_portfolio "MKT"
              [("AAPL", 3); ("NESN", -2)]
              (set_nextorderId (Some 7) (IBapi_new true)) 7)
    as (orders & connection' & E & Hm & _).
  - repeat constructor; simpl; intuition discriminate.
  - reflexivity.
  - exists orders. split; [now rewrite E|exact Hm].
Defined.

(* ====================================================================== *)
(** ** More on requests: what is sent and what is read *)
(* ====================================================================== *)

Lemma callback_sent (c : IBapi) (m : Message) :
  sent (callback c m) = sent c /\ _nextreqId (callback c m) = _nextreqId c.
Proof. destruct m; split; reflexivity. Qed.

Lemma fold_callback_sent (msgs : list Message) :
  forall c : IBapi,
    sent (fold_left callback msgs c) = sent c
    /\ _nextreqId (fold_left callback msgs c) = _nextreqId c.
Proof.
  induction msgs as [|m msgs IH]; intros c; simpl; [now split|].
  destruct (IH (callback c m)) as [-> ->]. apply callback_sent.
Qed.

Lemma request_market_data_loop_sent
    (self : IBPortfolio) (tick_type : string) (symbols : list string) :
  forall (quotes : dict (dict float)) (w : Session) (n : Z),
    _nextreqId (connection w) = Some n ->
    let w' := snd (request_market_data_loop self tick_type symbols quotes w) in
    sent (connection w')
    = sent (connection w)
      ++ map (fun p => ReqMktData (Some (fst p))
                                  (get_contract (snd p) (contracts self))
                                  tick_type false false)
             (enumerate_from n symbols)
    /\ _nextreqId (connection w')
       = Some (n + Z.of_nat (List.length symbols)).
Proof.
  induction symbols as [|sym rest IH]; intros quotes w n Hn.
  - simpl. rewrite app_nil_r, Z.add_0_r. now split.
  - cbn [request_market_data_loop]. unfold nextreqId. rewrite Hn.
    match goal with
    | |- context [request_market_data_loop _ _ _ ?q ?w1] =>
        destruct (IH q w1 (n + 1)) as [Hs Hi]
    end.
    { destruct (sleep_sent 1
                  (on_connection
                     (fun _ => send (ReqMktData (Some n)
                                       (get_contract sym (contracts self))
                                       tick_type false false)
                                    (set_nextreqId (Some (n + 1))
                                                   (connection w))) w))
        as [_ ->].
      reflexivity. }
    cbv zeta in Hs, Hi |- *. rewrite Hs, Hi. split.
    + destruct (sleep_sent 1
                  (on_connection
                     (fun _ => send (ReqMktData (Some n)
                                       (get_contract sym (contracts self))
                                       tick_type false false)
                                    (set_nextreqId (Some (n + 1))
                                                   (connection w))) w))
        as [-> _].
      simpl. now rewrite <- app_assoc.
    + f_equal. cbn [List.length]. lia.
Qed.

(** X18. [request_market_data] sends one market data request per symbol,
    in the order of the symbols, each under the next identifier of the
    generator, for the registry's first contract with the symbol (or for
    no contract when the registry has none); the generator is left past
    the identifiers used. *)
Theorem request_market_data_requests :
  forall (self : IBPortfolio) (symbols : list string) (tick_type : string)
         (w : Session) (n : Z),
    _nextreqId (connection w) = Some n ->
    let w' := snd (request_market_data self symbols tick_type w) in
    sent (connection w')
    = sent (connection w)
      ++ map (fun p => ReqMktData (Some (fst p))
                                  (get_contract (snd p) (contracts self))
                                  tick_type false false)
             (enumerate_from n symbols)
    /\ _nextreqId (connection w')
       = Some (n + Z.of_nat (List.length symbols)).
Proof.
  intros self symbols tick_type w n Hn. unfold request_market_data.
  apply (request_market_data_loop_sent self tick_type symbols []
           (on_connection clear_data_current w) n).
  exact Hn.
Qed.

Lemma request_market_data_requests_witness :
  sent (connection
          (snd (request_market_data two_stock_portfolio ["MSFT"; "NESN"] ""
                  {| connection := IBapi_new true; clock := 0;
                     inbound := [] |})))
  = [ReqMktData (Some 0) (Some msft) "" false false;
     ReqMktData (Some 1) None "" false false].
Proof.
  apply (proj1 (request_market_data_requests two_stock_portfolio
                  ["MSFT"; "NESN"] ""
                  {| connection := IBapi_new true; clock := 0;
                     inbound := [] |} 0 eq_refl)).
Defined.



Lemma keys_dict_set_incl {V : Type} (key k : string) (v : V) (d : dict V) :
  In k (keys d) -> In k (keys (dict_set key v d)).
Proof.
  induction d as [|[k' x] d IH]; simpl; [tauto|].
  destruct (String.eqb k' key); simpl; tauto.
Qed.

Lemma keys_dict_set_key {V : Type} (key : string) (v : V) (d : dict V) :
  In key (keys (dict_set key v d)).
Proof.
  induction d as [|[k' x] d IH]; simpl; [now left|].
  destruct (String.eqb_spec k' key) as [->|_]; simpl; auto.
Qed.

Lemma fold_callback_no_tick (tick : string) (msgs : list Message) :
  forall c : IBapi,
    (forall m, In m msgs -> is_tick tick m = false) ->
    dict_get tick (data_current (fold_left callback msgs c))
    = dict_get tick (data_current c).
Proof.
  induction msgs as [|m msgs IH]; intros c H; simpl; [reflexivity|].
  rewrite IH by (intros m' Hm'; apply H; now right).
  rewrite data_current_callback.
  pose proof (H m (or_introl eq_refl)) as Hm.
  destruct m; try reflexivity. simpl in Hm. now rewrite Hm.
Qed.

Lemma sleep_inbound_incl (secs : Z) (w : Session) (tm : Z * Message) :
  In tm (inbound (sleep secs w)) -> In tm (inbound w).
Proof. unfold sleep. simpl. intros H. now apply filter_In in H. Qed.

Lemma request_market_data_loop_no_tick
    (self : IBPortfolio) (tick_type tick : string) (symbols : list string) :
  forall (quotes : dict (dict float)) (w : Session),
    dict_get tick (data_current (connection w)) = None ->
    (forall sym d, dict_get sym quotes = Some d -> dict_get tick d = None) ->
    (forall t m, In (t, m) (inbound w) -> is_tick tick m = true ->
                 clock w + 1000 * Z.of_nat (List.length symbols) < t) ->
    let r := request_market_data_loop self tick_type symbols quotes w in
    (forall sym d, dict_get sym (fst r) = Some d -> dict_get tick d = None)
    /\ (forall sym, In sym symbols \/ In sym (keys quotes) ->
                    In sym (keys (fst r))).
Proof.
  induction symbols as [|s rest IH]; intros quotes w Hc Hq Hin.
  - simpl. split; [exact Hq|]. intros sym [[]|H]. exact H.
  - cbn [request_market_data_loop].
    destruct (nextreqId (connection w)) as [reqId conn] eqn:En.
    assert (Hdc : data_current conn = data_current (connection w)).
    { unfold nextreqId in En.
      destruct (_nextreqId (connection w)); injection En as _ <-;
        reflexivity. }
    set (w1 := on_connection
                 (fun _ => send (ReqMktData reqId
                                   (get_contract s (contracts self))
                                   tick_type false false) conn) w).
    set (w2 := sleep 1 w1).
    assert (Hc2 : dict_get tick (data_current (connection w2)) = None).
    { unfold w2, sleep. cbn [connection].
      rewrite fold_callback_no_tick.
      - unfold w1. simpl. now rewrite Hdc.
      - intros m Hm. apply in_map_iff in Hm.
        destruct Hm as ([t m'] & <- & Hf). apply filter_In in Hf.
        destruct Hf as [Hi Hd]. unfold due in Hd. cbn [fst snd] in Hd |- *.
        destruct (is_tick tick m') eqn:Et; [|reflexivity].
        pose proof (Hin t m' Hi Et) as Hlt. cbn [List.length] in Hlt.
        apply Z.leb_le in Hd. unfold w1 in Hd. simpl in Hd.
        exfalso. lia. }
    destruct (IH (dict_set s (data_current (connection w2)) quotes) w2 Hc2)
      as [H1 H2].
    + intros sym d. destruct (String.eqb_spec s sym) as [<-|N].
      * rewrite dict_get_set_same. now intros [= <-].
      * rewrite dict_get_set_other by exact N. apply Hq.
    + intros t m Hi Et. apply sleep_inbound_incl in Hi.
      pose proof (Hin t m Hi Et) as Hlt. cbn [List.length] in Hlt.
      change (clock w2) with (clock w + 1000 * 1). lia.
    + split; [exact H1|]. intros sym Hs. apply H2.
      destruct Hs as [[<-|Hs]|Hs].
      * right. apply keys_dict_set_key.
      * now left.
      * right. now apply keys_dict_set_incl.
Qed.

(** X20. [get_quotes] has nothing to fall back on: when the registry is
    not empty and no tick of the requested type (CLOSE when none is named)
    arrives within the second that each symbol is given, the call raises
    [KeyError] for the tick type. *)
Theorem get_quotes_without_tick :
  forall (self : IBPortfolio) (tick_type : string) (w : Session),
    let tick := if String.eqb tick_type "" then "CLOSE" else tick_type in
    contract_list (contracts self) <> [] ->
    (forall t m,
        In (t, m) (inbound w) -> is_tick tick m = true ->
        clock w
        + 1000 * Z.of_nat (List.length (contract_list (contracts self)))
        < t) ->
    fst (get_quotes self tick_type w) = Raise (KeyError tick).
Proof.
  intros self tick_type w tick Hne Hin. unfold get_quotes.
  fold tick.
  destruct (request_market_data self (get_symbols (contracts self)) tick_type
                                w) as [quotes_dict w'] eqn:E.
  cbn [fst].
  destruct (request_market_data_loop_no_tick self tick_type tick
              (get_symbols (contracts self)) []
              (on_connection clear_data_current w)) as [H1 H2].
  - reflexivity.
  - intros sym d. discriminate.
  - unfold get_symbols. rewrite length_map. exact Hin.
  - unfold request_market_data in E. rewrite E in H1, H2. cbn [fst] in H1, H2.
    destruct (keys quotes_dict) as [|k0 ks] eqn:Ek.
    + destruct (contract_list (contracts self)) as [|c cs] eqn:Ec;
        [now elim Hne|].
      elim (H2 (symbol c)). left. unfold get_symbols. rewrite Ec. now left.
    + cbn [get_quotes_comprehension].
      destruct (In_dict_get k0 quotes_dict) as [d Hd].
      { rewrite Ek. now left. }
      unfold getitem. rewrite Hd. simpl. now rewrite (H1 k0 d Hd).
Qed.

Lemma get_quotes_without_tick_witness :
  fst (get_quotes two_stock_portfolio ""
         {| connection := IBapi_new true; clock := 0;
            inbound := [(300, tickPrice 0 "BID" (float_of_Z 10));
                        (5000, tickPrice 0 "CLOSE" (float_of_Z 11))] |})
  = Raise (KeyError "CLOSE").
Proof.
  apply (get_quotes_without_tick two_stock_portfolio ""
           {| connection := IBapi_new true; clock := 0;
              inbound := [(300, tickPrice 0 "BID" (float_of_Z 10));
                          (5000, tickPrice 0 "CLOSE" (float_of_Z 11))] |}).
  - discriminate.
  - intros t m [[= <- <-]|[[= <- <-]|[]]]; simpl; [discriminate|lia].
Defined.

Lemma callback_keys (c : IBapi) (m : Message) (k : string) :
  In k (keys (data_current c)) -> In k (keys (data_current (callback c m))).
Proof.
  destruct m; simpl; auto. apply keys_dict_set_incl.
Qed.

Lemma fold_callback_keys (msgs : list Message) (k : string) :
  forall c : IBapi,
    In k (keys (data_current c)) ->
    In k (keys (data_current (fold_left callback msgs c))).
Proof.
  induction msgs as [|m msgs IH]; intros c H; simpl; [exact H|].
  apply IH. now apply callback_keys.
Qed.

Lemma request_market_data_loop_snapshots
    (self : IBPortfolio) (tick_type : string) (symbols : list string) :
  forall (quotes : dict (dict float)) (w : Session),
    NoDup symbols ->
    let r := request_market_data_loop self tick_type symbols quotes w in
    (forall sym, ~ In sym symbols ->
                 dict_get sym (fst r) = dict_get sym quotes)
    /\ (forall sym, In sym symbols ->
          exists d, dict_get sym (fst r) = Some d
                    /\ forall k, In k (keys (data_current (connection w))) ->
                                 In k (keys d))
    /\ (forall i j a b da db,
           (i < j)%nat ->
           nth_error symbols i = Some a -> nth_error symbols j = Some b ->
           dict_get a (fst r) = Some da -> dict_get b (fst r) = Some db ->
           forall k, In k (keys da) -> In k (keys db)).
Proof.
  induction symbols as [|s rest IH]; intros quotes w ND.
  - simpl. split; [auto|]. split; [intros sym []|].
    intros i j a b da db _ Ha. destruct i; discriminate.
  - inversion ND as [|? ? Hs ND']; subst.
    cbn [request_market_data_loop].
    destruct (nextreqId (connection w)) as [reqId conn] eqn:En.
    assert (Hdc : data_current conn = data_current (connection w)).
    { unfold nextreqId in En.
      destruct (_nextreqId (connection w)); injection En as _ <-;
        reflexivity. }
    set (w2 := sleep 1
                 (on_connection
                    (fun _ => send (ReqMktData reqId
                                      (get_contract s (contracts self))
                                      tick_type false false) conn) w)).
    assert (Hmono : forall k, In k (keys (data_current (connection w))) ->
                              In k (keys (data_current (connection w2)))).
    { intros k Hk. unfold w2, sleep. cbn [connection].
      apply fold_callback_keys. simpl. now rewrite Hdc. }
    destruct (IH (dict_set s (data_current (connection w2)) quotes) w2 ND')
      as (H1 & H2 & H3).
    assert (Hs1 : dict_get s
                    (fst (request_market_data_loop self tick_type rest
                            (dict_set s (data_current (connection w2)) quotes)
                            w2))
                  = Some (data_current (connection w2))).
    { rewrite (H1 s Hs). apply dict_get_set_same. }
    split; [|split].
    + intros sym Hn. rewrite H1 by (intros H; apply Hn; now right).
      apply dict_get_set_other. intros ->. apply Hn. now left.
    + intros sym [<-|Hin].
      * eexists. split; [exact Hs1|exact Hmono].
      * destruct (H2 sym Hin) as (d & Hd & Hk). exists d. split; auto.
    + intros i j a b da db Hij Ha Hb Hda Hdb k Hk.
      destruct j as [|j]; [lia|]. simpl in Hb. destruct i as [|i].
      * injection Ha as <-. rewrite Hs1 in Hda. injection Hda as <-.
        apply nth_error_In in Hb. destruct (H2 b Hb) as (d & Hd & Hkd).
        rewrite Hd in Hdb. injection Hdb as <-. auto.
      * simpl in Ha. apply (H3 i j a b da db); auto. lia.
Qed.

(** X21. [request_market_data] clears the buffer once, before the first
    request, and not between symbols: what is stored for a symbol has every
    tick type that is stored for a symbol requested before it. *)
Theorem request_market_data_accumulates :
  forall (self : IBPortfolio) (symbols : list string) (tick_type : string)
         (w : Session) (i j : nat) (a b : string) (da db : dict float),
    NoDup symbols ->
    (i < j)%nat ->
    nth_error symbols i = Some a ->
    nth_error symbols j = Some b ->
    dict_get a (fst (request_market_data self symbols tick_type w)) = Some da ->
    dict_get b (fst (request_market_data self symbols tick_type w)) = Some db ->
    forall k, In k (keys da) -> In k (keys db).
Proof.
  intros self symbols tick_type w i j a b da db ND.
  unfold request_market_data.
  destruct (request_market_data_loop_snapshots self tick_type symbols []
              (on_connection clear_data_current w) ND) as (_ & _ & H).
  apply H.
Qed.

Lemma request_market_data_accumulates_witness :
  In "BID" (keys [("BID", float_of_Z 10); ("CLOSE", float_of_Z 20)]).
Proof.
  apply (request_market_data_accumulates two_stock_portfolio
           ["AAPL"; "MSFT"] ""
           {| connection := IBapi_new true; clock := 0;
              inbound := [(300, tickPrice 0 "BID" (float_of_Z 10));
                          (1500, tickPrice 1 "CLOSE" (float_of_Z 20))] |}
           0%nat 1%nat "AAPL" "MSFT"
           [("BID", float_of_Z 10)]
           [("BID", float_of_Z 10); ("CLOSE", float_of_Z 20)]).
  - repeat constructor; simpl; intuition discriminate.
  - lia.
  - reflexivity.
  - reflexivity.
  - reflexivity.
  - reflexivity.
  - simpl. now left.
Defined.

Lemma data_hist_fold (msgs : list (Z * Message)) :
  forall c : IBapi,
    data_hist (fold_left callback (map snd msgs) c)
    = data_hist c ++ bars_of msgs.
Proof.
  induction msgs as [|[t m] msgs IH]; intros c; simpl.
  - now rewrite app_nil_r.
  - rewrite IH. destruct m; simpl; try reflexivity.
    now rewrite <- app_assoc.
Qed.

Lemma filter_twice {A : Type} (p q : A -> bool) (l : list A) :
  filter p (filter q l) = filter (fun x => q x && p x) l.
Proof.
  induction l as [|x l IH]; simpl; [reflexivity|].
  destruct (q x); simpl; [destruct (p x)|]; now rewrite IH.
Qed.

Lemma filter_all {A : Type} (p : A -> bool) (l : list A) :
  Forall (fun x => p x = true) l -> filter p l = l.
Proof.
  induction 1 as [|x l Hx _ IH]; simpl; [reflexivity|].
  now rewrite Hx, IH.
Qed.

Lemma map_combine_snd {A B C : Type} (f : B -> C) (l : list A) :
  forall l' : list B,
    List.length l = List.length l' ->
    map (fun p => f (snd p)) (combine l l') = map f l'.
Proof.
  induction l as [|a l IH]; intros [|b l'] H; simpl in *;
    try discriminate; [reflexivity|].
  f_equal. apply IH. now injection H.
Qed.

Lemma to_datetime_column_length
    (to_datetime : list string -> result (list Z)) :
  (forall dates ts,
      to_datetime dates = Ok ts -> List.length ts = List.length dates) ->
  forall dates ts,
    to_datetime_column to_datetime dates = Ok ts ->
    List.length ts = List.length dates.
Proof.
  intros H [|d dates] ts; simpl.
  - now intros [= <-].
  - apply H.
Qed.

Lemma request_historical_data_loop_windows
    (to_datetime : list string -> result (list Z))
    (durationStr barSizeSetting : string) (T : Z)
    (inbound0 : list (Z * Message)) (cs : list Contract) :
  (forall dates ts,
      to_datetime dates = Ok ts -> List.length ts = List.length dates) ->
  forall (i : Z) (data_hist0 : list HistoricalRow) (w : Session)
         (rows : list HistoricalRow),
    clock w = T + 1000 * i ->
    inbound w = filter (fun tm => T + 1000 * i <? fst tm) inbound0 ->
    fst (request_historical_data_loop to_datetime durationStr barSizeSetting
           (enumerate_from i cs) data_hist0 w)
    = Ok rows ->
    map (fun row => (hist_symbol row, hist_bar row)) rows
    = map (fun row => (hist_symbol row, hist_bar row)) data_hist0
      ++ flat_map
           (fun p =>
              map (fun bar => (symbol (snd p), bar))
                  (bars_of (arriving (T + 1000 * fst p)
                                     (T + 1000 * (fst p + 1)) inbound0)))
           (enumerate_from i cs).
Proof.
  intros Hlen.
  induction cs as [|c cs IH]; intros i data_hist0 w rows Hclock Hinb.
  - simpl. intros [= <-]. now rewrite app_nil_r.
  - cbn [enumerate_from request_historical_data_loop flat_map fst snd].
    set (w2 := sleep 1
                 (on_connection
                    (send (ReqHistoricalData (i + 1) c "" durationStr
                                             barSizeSetting "TRADES" 0 1
                                             false))
                    (on_connection clear_data_hist w))).
    assert (Hbars : data_hist (connection w2)
                    = bars_of (arriving (T + 1000 * i) (T + 1000 * (i + 1))
                                        inbound0)).
    { unfold w2, sleep. cbn [connection on_connection inbound clock].
      rewrite data_hist_fold. cbn [data_hist send clear_data_hist
                                     set_data_hist app].
      f_equal. rewrite Hinb, Hclock, filter_twice. unfold arriving, due.
      apply filter_ext. intros [t m]. cbn [fst].
      replace (T + 1000 * i + 1000 * 1) with (T + 1000 * (i + 1)) by lia.
      reflexivity. }
    destruct (to_datetime_column to_datetime
                (map date (data_hist (connection w2)))) as [dates|e] eqn:Ed;
      [|discriminate].
    intros Hrows.
    apply (IH (i + 1)) in Hrows.
    + rewrite Hrows, map_app, <- app_assoc. f_equal. f_equal.
      rewrite map_map. cbn [hist_symbol hist_bar].
      rewrite (map_combine_snd (fun bar => (symbol c, bar))).
      * now rewrite Hbars.
      * rewrite (to_datetime_column_length to_datetime Hlen _ _ Ed).
        apply length_map.
    + unfold w2, sleep. cbn [clock on_connection]. rewrite Hclock. lia.
    + unfold w2, sleep. cbn [inbound on_connection clock].
      rewrite Hinb, Hclock, filter_twice. apply filter_ext.
      intros [t m]. unfold due. cbn [fst].
      destruct (Z.ltb_spec (T + 1000 * i) t),
               (Z.leb_spec t (T + 1000 * i + 1000 * 1)),
               (Z.ltb_spec (T + 1000 * (i + 1)) t);
        simpl; try reflexivity; lia.
Qed.

(** X22. [request_historical_data] files a bar under the contract in whose
    second it arrives, not under the contract whose request it answers. On
    a session whose messages are scheduled in the order of arrival after
    the clock, with a date parser that gives one time per date, when the
    call returns (no date failed to parse), the symbols and bars of the
    rows are, contract by contract in the order of the registry, the bars
    that arrive in the second after that contract's request, in the order
    of arrival, each with the contract's symbol. *)
Theorem request_historical_data_by_arrival :
  forall (to_datetime : list string -> result (list Z))
         (self : IBPortfolio) (durationStr barSizeSetting : string)
         (w : Session) (rows : list HistoricalRow),
    (forall dates ts,
        to_datetime dates = Ok ts -> List.length ts = List.length dates) ->
    scheduled w ->
    fst (request_historical_data to_datetime self durationStr barSizeSetting
                                 w)
    = Ok rows ->
    map (fun row => (hist_symbol row, hist_bar row)) rows
    = flat_map
        (fun p =>
           map (fun bar => (symbol (snd p), bar))
               (bars_of (arriving (clock w + 1000 * fst p)
                                  (clock w + 1000 * (fst p + 1))
                                  (inbound w))))
        (enumerate (contract_list (contracts self))).
Proof.
  intros to_datetime self durationStr barSizeSetting w rows Hlen [Hfut _]
         Hrows.
  unfold request_historical_data, enumerate in *.
  rewrite (request_historical_data_loop_windows to_datetime durationStr
             barSizeSetting (clock w) (inbound w)
             (contract_list (contracts self)) Hlen 0 [] w rows);
    [reflexivity|lia| |exact Hrows].
  symmetry. apply filter_all.
  eapply Forall_impl; [|exact Hfut].
  intros [t m] H. cbn [fst] in *. apply Z.ltb_lt. lia.
Qed.

Lemma yyyymmdd_length (dates : list string) :
  forall ts, yyyymmdd dates = Ok ts -> List.length ts = List.length dates.
Proof.
  induction dates as [|d dates IH]; intros ts; simpl.
  - now intros [= <-].
  - destruct (if Nat.eqb (String.length d) 8 then digits d 0 else None)
      as [t|]; [|discriminate].
    destruct (yyyymmdd dates) as [ts'|e]; simpl; [|discriminate].
    intros [= <-]. simpl. f_equal. now apply IH.
Qed.

Lemma request_historical_data_by_arrival_witness :
  map (fun row => (hist_symbol row, hist_bar row))
      [{| hist_date := 20250514; hist_symbol := "AAPL";
          hist_bar := flat_bar "20250514" 200 |};
       {| hist_date := 20250515; hist_symbol := "MSFT";
          hist_bar := flat_bar "20250515" 201 |};
       {| hist_date := 20250514; hist_symbol := "MSFT";
          hist_bar := flat_bar "20250514" 400 |}]
  = [("AAPL", flat_bar "20250514" 200);
     ("MSFT", flat_bar "20250515" 201);
     ("MSFT", flat_bar "20250514" 400)].
Proof.
  rewrite (request_historical_data_by_arrival yyyymmdd two_stock_portfolio
             "2 D" "1 day"
             {| connection := IBapi_new false; clock := 0;
                inbound :=
                  [(600, historicalData 1 (flat_bar "20250514" 200));
                   (1200, historicalData 1 (flat_bar "20250515" 201));
                   (1700, historicalData 2 (flat_bar "20250514" 400));
                   (2600, historicalData 2 (flat_bar "20250515" 401))] |}).
  - reflexivity.
  - exact yyyymmdd_length.
  - unfold scheduled. simpl. repeat (split || constructor); lia.
  - reflexivity.
Defined.

(* ====================================================================== *)
(** ** More on accounts *)
(* ====================================================================== *)

(** X23. An account is created from any identifier that has a character
    other than white space, with no positions; an identifier that is empty
    or white space only is refused with a [ValueError]. *)
Theorem IBAccount_init_checks_id :
  forall account_id : string,
    (whitespace_only account_id = false ->
     IBAccount_init account_id
     = Ok {| account_id := account_id; positions := [] |})
    /\ (whitespace_only account_id = true ->
        IBAccount_init account_id
        = Raise (ValueError "account_id must be a non-empty string.")).
Proof.
  intros account_id. unfold IBAccount_init. rewrite strip_blank.
  split; intros ->; reflexivity.
Qed.

Lemma IBAccount_init_checks_id_witness :
  IBAccount_init "DU6755222"
  = Ok {| account_id := "DU6755222"; positions := [] |}
  /\ IBAccount_init "  "
     = Raise (ValueError "account_id must be a non-empty string.").
Proof.
  split.
  - apply (proj1 (IBAccount_init_checks_id "DU6755222")). reflexivity.
  - apply (proj2 (IBAccount_init_checks_id "  ")). reflexivity.
Defined.

Lemma filter_STK_consistent (l : list Contract) :
  class_consistent
    {| cls := EquityContracts;
       contract_list :=
         filter (fun contract => String.eqb (secType contract) "STK") l |}.
Proof.
  unfold class_consistent. simpl. rewrite Forall_forall.
  intros c Hc. apply filter_In in Hc. now apply String.eqb_eq.
Qed.

Lemma get_equity_contracts_eq (self : IBAccount) (update : bool) (w : Session) :
  let state := if empty (positions self) || update
               then request_positions self w
               else (self, w) in
  get_equity_contracts self update w
  = (Ok {| cls := EquityContracts;
           contract_list :=
             filter (fun contract => String.eqb (secType contract) "STK")
                    (map row_contract (positions (fst state))) |},
     state).
Proof.
  unfold get_equity_contracts.
  destruct (if empty (positions self) || update
            then request_positions self w else (self, w)) as [self' w'].
  cbn [fst]. unfold init, contract_list_setter.
  now rewrite all_Contract_map.
Qed.

(** X24. [get_equity_contracts] always returns an equity registry all of
    whose members are STK contracts: the contracts of the account's
    positions, in their order, without those of another security type. It
    asks the broker for positions only when the account has none or
    [update] is set; otherwise account and session are left as they were. *)
Theorem get_equity_contracts_only_stocks :
  forall (self : IBAccount) (update : bool) (w : Session),
    exists registry self' w',
      get_equity_contracts self update w = (Ok registry, (self', w'))
      /\ cls registry = EquityContracts
      /\ class_consistent registry
      /\ (forall c, In c (contract_list registry)
                    <-> In c (map row_contract (positions self'))
                        /\ secType c = "STK")
      /\ (empty (positions self) || update = false ->
          self' = self /\ w' = w)
      /\ (empty (positions self) || update = true ->
          (self', w') = request_positions self w).
Proof.
  intros self update w. rewrite get_equity_contracts_eq.
  destruct (if empty (positions self) || update
            then request_positions self w else (self, w))
    as [self' w'] eqn:E.
  do 3 eexists. split; [reflexivity|]. cbn [fst].
  split; [reflexivity|]. split; [apply filter_STK_consistent|].
  split; [|split].
  - intros c. cbn [contract_list]. rewrite filter_In.
    now rewrite String.eqb_eq.
  - intros H. rewrite H in E. now injection E as <- <-.
  - intros H. rewrite H in E. now rewrite E.
Qed.

Lemma get_equity_contracts_only_stocks_witness :
  exists registry,
    fst (get_equity_contracts
           {| account_id := "DU1";
              positions :=
                [holding aapl;
                 holding {| symbol := "EUR"; secType := "CASH";
                            currency := "USD"; exchange := "IDEALPRO" |};
                 holding msft] |}
           false
           {| connection := IBapi_new true; clock := 0; inbound := [] |})
    = Ok registry
    /\ class_consistent registry.
Proof.
  destruct (get_equity_contracts_only_stocks
              {| account_id := "DU1";
                 positions :=
                   [holding aapl;
                    holding {| symbol := "EUR"; secType := "CASH";
                               currency := "USD"; exchange := "IDEALPRO" |};
                    holding msft] |}
              false
              {| connection := IBapi_new true; clock := 0; inbound := [] |})
    as (registry & self' & w' & E & _ & Hc & _).
  exists registry. split; [now rewrite E|exact Hc].
Defined.

(** X25. [get_equity_portfolio] always returns a portfolio, over the
    registry of [get_equity_contracts], whose net asset value is NaN. Orders
    cannot be prepared from it: for weights that are not empty
    [prepare_orders] raises and leaves the connection as it was. *)
Theorem get_equity_portfolio_has_no_nav :
  forall (self : IBAccount) (update : bool) (w : Session),
    exists portfolio state,
      get_equity_portfolio self update w = (Ok portfolio, state)
      /\ fst (get_equity_contracts self update w) = Ok (contracts portfolio)
      /\ is_nan (nav portfolio) = true
      /\ forall w_init w_new quotes order_type connection,
           w_init <> [] ->
           exists e,
             prepare_orders portfolio w_init w_new quotes order_type
                            connection
             = (Raise e, connection).
Proof.
  intros self update w. unfold get_equity_portfolio.
  rewrite get_equity_contracts_eq. cbv zeta.
  unfold EquityPortfolio, IBPortfolio_init. cbn [cls nav_setter bind fst].
  do 2 eexists. split; [reflexivity|]. split; [reflexivity|].
  split; [reflexivity|].
  intros w_init w_new quotes order_type connection Hne.
  destruct w_init as [|[key wi] rest]; [now elim Hne|].
  unfold prepare_orders.
  match goal with
  | |- context [calc_order_quantities ?p ?a ?b ?q None] =>
      destruct (proj1 (calc_order_quantities_nan p a b q None key wi rest
                         eq_refl eq_refl)) as [e ->]
  end.
  eauto.
Qed.

Lemma get_equity_portfolio_has_no_nav_witness :
  exists portfolio state e,
    get_equity_portfolio
      {| account_id := "DU1"; positions := [holding aapl] |} false
      {| connection := IBapi_new true; clock := 0; inbound := [] |}
    = (Ok portfolio, state)
    /\ prepare_orders portfolio [("AAPL", float_lit 5 10)]
         [("AAPL", float_lit 8 10)] [("AAPL", float_of_Z 200)] "MKT"
         (set_nextorderId (Some 1) (IBapi_new true))
       = (Raise e, set_nextorderId (Some 1) (IBapi_new true)).
Proof.
  destruct (get_equity_portfolio_has_no_nav
              {| account_id := "DU1"; positions := [holding aapl] |} false
              {| connection := IBapi_new true; clock := 0; inbound := [] |})
    as (portfolio & state & E & _ & _ & H).
  destruct (H [("AAPL", float_lit 5 10)] [("AAPL", float_lit 8 10)]
              [("AAPL", float_of_Z 200)] "MKT"
              (set_nextorderId (Some 1) (IBapi_new true)))
    as [e He]; [discriminate|].
  exists portfolio, state, e. split; assumption.
Defined.

(* ====================================================================== *)
(** ** Quotes that are returned *)
(* ====================================================================== *)

Lemma request_market_data_loop_keys
    (self : IBPortfolio) (tick_type : string) (symbols : list string) :
  forall (quotes : dict (dict float)) (w : Session),
    NoDup (keys quotes ++ symbols) ->
    keys (fst (request_market_data_loop self tick_type symbols quotes w))
    = keys quotes ++ symbols.
Proof.
  induction symbols as [|s rest IH]; intros quotes w ND.
  - simpl. now rewrite app_nil_r.
  - cbn [request_market_data_loop].
    destruct (nextreqId (connection w)) as [reqId conn].
    assert (Hnew : ~ In s (keys quotes)).
    { intros Hin. apply NoDup_remove_2 in ND. apply ND.
      apply in_or_app. now left. }
    rewrite IH; rewrite (dict_set_new _ _ _ Hnew), keys_app.
    + now rewrite <- app_assoc.
    + now rewrite <- app_assoc.
Qed.

Lemma get_quotes_comprehension_inv
    (quotes_dict : dict (dict float)) (tick : string) (ks : list string) :
  forall acc r : dict float,
    get_quotes_comprehension quotes_dict tick ks acc = Ok r ->
    NoDup (keys acc ++ ks) ->
    keys r = keys acc ++ ks
    /\ (forall sym, In sym ks ->
          exists d p, dict_get sym quotes_dict = Some d
                      /\ dict_get tick d = Some p
                      /\ dict_get sym r = Some p)
    /\ (forall sym, ~ In sym ks -> dict_get sym r = dict_get sym acc).
Proof.
  induction ks as [|s ks IH]; intros acc r E ND.
  - simpl in E. injection E as <-. rewrite app_nil_r.
    repeat split; auto. intros sym [].
  - cbn [get_quotes_comprehension] in E. unfold getitem in E.
    destruct (dict_get s quotes_dict) as [d|] eqn:Hd; [|discriminate].
    cbn [bind] in E.
    destruct (dict_get tick d) as [p|] eqn:Hp; [|discriminate].
    cbn [bind] in E.
    assert (Hnew : ~ In s (keys acc)).
    { intros Hin. apply NoDup_remove_2 in ND. apply ND.
      apply in_or_app. now left. }
    assert (Hks : ~ In s ks).
    { intros Hin. apply NoDup_remove_2 in ND. apply ND.
      apply in_or_app. now right. }
    rewrite (dict_set_new _ _ _ Hnew) in E.
    destruct (IH _ _ E) as (K & Hin & Hout).
    { rewrite keys_app, <- app_assoc. exact ND. }
    split; [now rewrite K, keys_app, <- app_assoc|]. split.
    + intros sym [<-|Hs]; [|auto].
      exists d, p. split; [exact Hd|]. split; [exact Hp|].
      rewrite (Hout s Hks), <- (dict_set_new _ _ _ Hnew).
      apply dict_get_set_same.
    + intros sym Hn. rewrite (Hout sym) by (intros ?; apply Hn; now right).
      rewrite <- (dict_set_new _ _ _ Hnew).
      apply dict_get_set_other. intros ->. apply Hn. now left.
Qed.

(** X26. When [get_quotes] returns for a registry with distinct symbols,
    the result has one price per symbol, in the order of the registry, and
    the price of a symbol is the entry for the tick type (CLOSE when none
    is named) in what [request_market_data] stored for that symbol. *)
Theorem get_quotes_one_price_per_symbol :
  forall (self : IBPortfolio) (tick_type : string) (w : Session)
         (prices : dict float),
    let tick := if String.eqb tick_type "" then "CLOSE" else tick_type in
    let symbols := get_symbols (contracts self) in
    NoDup symbols ->
    fst (get_quotes self tick_type w) = Ok prices ->
    keys prices = symbols
    /\ forall sym,
         In sym symbols ->
         exists d p,
           dict_get sym (fst (request_market_data self symbols tick_type w))
           = Some d
           /\ dict_get tick d = Some p
           /\ dict_get sym prices = Some p.
Proof.
  intros self tick_type w prices tick symbols ND. unfold get_quotes.
  fold tick symbols.
  destruct (request_market_data self symbols tick_type w)
    as [quotes_dict w'] eqn:E.
  cbn [fst]. intros Hq.
  assert (K : keys quotes_dict = symbols).
  { unfold request_market_data in E.
    pose proof (request_market_data_loop_keys self tick_type symbols []
                  (on_connection clear_data_current w) ND) as H.
    now rewrite E in H. }
  rewrite K in Hq.
  destruct (get_quotes_comprehension_inv _ _ _ _ _ Hq ND) as (Kp & Hin & _).
  split; [exact Kp|exact Hin].
Qed.

Lemma get_quotes_one_price_per_symbol_witness :
  keys [("AAPL", float_of_Z 10); ("MSFT", float_of_Z 10)] = ["AAPL"; "MSFT"].
Proof.
  apply (proj1 (get_quotes_one_price_per_symbol two_stock_portfolio ""
                  {| connection := IBapi_new true; clock := 0;
                     inbound := [(300, tickPrice 0 "CLOSE" (float_of_Z 10))]
                  |}
                  [("AAPL", float_of_Z 10); ("MSFT", float_of_Z 10)]
                  ltac:(repeat constructor; simpl; intuition discriminate)
                  eq_refl)).
Defined.
